(** * spotify.js: the OAuth2 token life cycle and the request dispatcher

    A shallow embedding of the [SpotifyJS] client class: its
    credential store, [generateAuthorizeUrl], [requestAccessToken],
    [refreshAccessToken], the dispatcher [_makeApiRequest] and the endpoint
    methods that funnel through it.

    The class runs on three platform facilities that are not part of the
    repository: the base64 globals [atob]/[btoa], the [URLSearchParams]
    class and an axios instance.  They are modelled first, from their
    standards (WHATWG HTML / URL) and from axios' request pipeline; the
    class itself follows, one definition per method.

    Strings are sequences of code units below 256 (the Latin-1 range of a
    JavaScript string); numbers are the integers. *)

From Stdlib Require Import String Ascii List ZArith NArith Lia Bool DecimalString Sorted.
From stdpp Require Import gmap strings.
Import ListNotations.
Open Scope string_scope.
Set Warnings "-register-all".

(** ** JavaScript values *)

Module JS.

Inductive value : Type :=
| VUndefined
| VNull
| VBool (b : bool)
| VNum (n : Z)
| VStr (s : string)
| VArr (xs : list value)
| VObj (fields : list (string * value))
| VErr (name message : string).

(** The outcome of evaluating an expression or calling a synchronous
    function: a value, or a thrown exception. *)
Inductive completion (A : Type) : Type :=
| Normal (a : A)
| Throw (e : value).
Arguments Normal {A} a.
Arguments Throw {A} e.

(** A settled promise.  Nothing in the class runs concurrently, so a
    promise is observed only once it has settled. *)
Inductive promise : Type :=
| Fulfilled (v : value)
| Rejected (e : value).

Definition is_nullish (v : value) : bool :=
  match v with VUndefined | VNull => true | _ => false end.

(** ToBoolean *)
Definition truthy (v : value) : bool :=
  match v with
  | VUndefined | VNull => false
  | VBool b => b
  | VNum n => negb (n =? 0)%Z
  | VStr s => negb (String.eqb s "")
  | VArr _ | VObj _ | VErr _ _ => true
  end.

Definition string_of_Z (n : Z) : string := NilZero.string_of_int (Z.to_int n).

Definition Error_toString (name message : string) : string :=
  if String.eqb name "" then message
  else if String.eqb message "" then name
  else name ++ ": " ++ message.

(** ToString, as a template literal applies it. *)
Fixpoint to_string (v : value) : string :=
  match v with
  | VUndefined => "undefined"
  | VNull => "null"
  | VBool true => "true"
  | VBool false => "false"
  | VNum n => string_of_Z n
  | VStr s => s
  | VArr xs =>
      String.concat ","
        (map (fun x => if is_nullish x then "" else to_string x) xs)
  | VObj _ => "[object Object]"
  | VErr name message => Error_toString name message
  end.

Fixpoint lookup_field (k : string) (fs : list (string * value)) : option value :=
  match fs with
  | [] => None
  | (k', v) :: fs' => if String.eqb k k' then Some v else lookup_field k fs'
  end.

Definition TypeError (message : string) : value := VErr "TypeError" message.

(** Property read [v.k] on own data properties.  Reading a property of
    [undefined] or [null] throws a TypeError. *)
Definition get_prop (v : value) (k : string) : completion value :=
  match v with
  | VUndefined =>
      Throw (TypeError ("Cannot read properties of undefined (reading '" ++ k ++ "')"))
  | VNull =>
      Throw (TypeError ("Cannot read properties of null (reading '" ++ k ++ "')"))
  | VObj fs => Normal (default VUndefined (lookup_field k fs))
  | VErr name message =>
      Normal (if String.eqb k "name" then VStr name
              else if String.eqb k "message" then VStr message
              else VUndefined)
  | VStr s =>
      Normal (if String.eqb k "length" then VNum (Z.of_nat (String.length s))
              else VUndefined)
  | VArr xs =>
      Normal (if String.eqb k "length" then VNum (Z.of_nat (length xs))
              else VUndefined)
  | VBool _ | VNum _ => Normal VUndefined
  end.

(** The value a JSON round trip keeps: properties whose value is
    [undefined] are dropped from objects, [undefined] array elements become
    [null], an Error has no enumerable property. *)
Fixpoint json (v : value) : value :=
  match v with
  | VArr xs =>
      VArr (map (fun x => match x with VUndefined => VNull | _ => json x end) xs)
  | VObj fs =>
      VObj ((fix fields (fs : list (string * value)) : list (string * value) :=
               match fs with
               | [] => []
               | (k, VUndefined) :: fs' => fields fs'
               | (k, x) :: fs' => (k, json x) :: fields fs'
               end) fs)
  | VErr _ _ => VObj []
  | _ => v
  end.

End JS.
Export JS.

(** ** Base64: the [atob] and [btoa] globals *)

Module Base64.

Definition is_ascii_whitespace (c : ascii) : bool :=
  let n := N_of_ascii c in
  ((n =? 9) || (n =? 10) || (n =? 12) || (n =? 13) || (n =? 32))%N.

(** The value of a character of the base64 alphabet. *)
Definition sextet_of_char (c : ascii) : option N :=
  let n := N_of_ascii c in
  if ((65 <=? n) && (n <=? 90))%N then Some (n - 65)%N
  else if ((97 <=? n) && (n <=? 122))%N then Some (n - 71)%N
  else if ((48 <=? n) && (n <=? 57))%N then Some (n + 4)%N
  else if (n =? 43)%N then Some 62%N
  else if (n =? 47)%N then Some 63%N
  else None.

Definition char_of_sextet (i : N) : ascii :=
  if (i <? 26)%N then ascii_of_N (i + 65)
  else if (i <? 52)%N then ascii_of_N (i + 71)
  else if (i <? 62)%N then ascii_of_N (i - 4)
  else if (i =? 62)%N then "+"%char
  else "/"%char.

Fixpoint sextets (d : list ascii) : option (list N) :=
  match d with
  | [] => Some []
  | c :: d' =>
      match sextet_of_char c, sextets d' with
      | Some n, Some ns => Some (n :: ns)
      | _, _ => None
      end
  end.

(** Step 2 of forgiving-base64 decode: when the length is a multiple of
    four, one or two trailing [=] are removed. *)
Definition drop_trailing_pad (d : list ascii) : list ascii :=
  match rev d with
  | c :: r => if Ascii.eqb c "=" then rev r else d
  | [] => d
  end.

Definition strip_padding (d : list ascii) : list ascii :=
  if (length d mod 4 =? 0)%nat then drop_trailing_pad (drop_trailing_pad d) else d.

Fixpoint bytes_of_sextets (l : list N) : list ascii :=
  match l with
  | a :: b :: c :: d :: r =>
      let n := (a * 262144 + b * 4096 + c * 64 + d)%N in
      ascii_of_N (n / 65536) :: ascii_of_N ((n / 256) mod 256)
        :: ascii_of_N (n mod 256) :: bytes_of_sextets r
  | [a; b; c] =>
      let n := ((a * 4096 + b * 64 + c) / 4)%N in
      [ascii_of_N (n / 256); ascii_of_N (n mod 256)]
  | [a; b] => [ascii_of_N ((a * 64 + b) / 16)]
  | _ => []
  end.

(** Forgiving-base64 decode (WHATWG Infra): ASCII whitespace is removed,
    padding is stripped, a length of 1 modulo 4 or a code point outside the
    alphabet fails. *)
Definition forgiving_base64_decode (s : string) : option string :=
  let d := strip_padding
             (List.filter (fun c => negb (is_ascii_whitespace c)) (list_ascii_of_string s)) in
  if (length d mod 4 =? 1)%nat then None
  else
    match sextets d with
    | Some l => Some (string_of_list_ascii (bytes_of_sextets l))
    | None => None
    end.

Fixpoint sextets_of_bytes (l : list N) : list ascii :=
  match l with
  | a :: b :: c :: r =>
      let n := (a * 65536 + b * 256 + c)%N in
      char_of_sextet (n / 262144) :: char_of_sextet ((n / 4096) mod 64)
        :: char_of_sextet ((n / 64) mod 64) :: char_of_sextet (n mod 64)
        :: sextets_of_bytes r
  | [a; b] =>
      let n := ((a * 256 + b) * 4)%N in
      [char_of_sextet (n / 4096); char_of_sextet ((n / 64) mod 64);
       char_of_sextet (n mod 64); "="%char]
  | [a] =>
      let n := (a * 16)%N in
      [char_of_sextet (n / 64); char_of_sextet (n mod 64); "="%char; "="%char]
  | [] => []
  end.

Definition base64_encode (s : string) : string :=
  string_of_list_ascii (sextets_of_bytes (map N_of_ascii (list_ascii_of_string s))).

Definition InvalidCharacterError : value :=
  VErr "InvalidCharacterError" "Invalid character".

(** [atob] DECODES base64 and throws on input that is not base64. *)
Definition atob (s : string) : completion string :=
  match forgiving_base64_decode s with
  | Some r => Normal r
  | None => Throw InvalidCharacterError
  end.

(** [btoa] ENCODES to base64; every code unit of the model is below 256,
    so it never throws here. *)
Definition btoa (s : string) : completion string := Normal (base64_encode s).

End Base64.

(** ** URLSearchParams *)

Module URLSearchParams.

Definition t : Type := list (string * string).

(** [new URLSearchParams({k: v, ...})]: the record's entries in order. *)
Definition of_record (entries : list (string * string)) : t := entries.

Definition append (name val : string) (p : t) : t := (p ++ [(name, val)])%list.

Fixpoint insert_by_name (x : string * string) (l : t) : t :=
  match l with
  | [] => [x]
  | y :: r =>
      if String.ltb (fst x) (fst y) then x :: y :: r
      else y :: insert_by_name x r
  end.

(** [sort()]: by name, comparing code units, pairs of equal name keeping
    their relative order. *)
Definition sort (p : t) : t :=
  fold_left (fun acc x => insert_by_name x acc) p [].

Definition hex_digit (n : N) : ascii :=
  if (n <? 10)%N then ascii_of_N (48 + n) else ascii_of_N (55 + n).

Definition percent_encode (b : N) : string :=
  String "%" (String (hex_digit (b / 16)) (String (hex_digit (b mod 16)) "")).

(** The bytes that the application/x-www-form-urlencoded serializer leaves
    as they are: ASCII alphanumerics and [* - . _]. *)
Definition unreserved (b : N) : bool :=
  (((48 <=? b) && (b <=? 57)) || ((65 <=? b) && (b <=? 90))
   || ((97 <=? b) && (b <=? 122))
   || (b =? 42) || (b =? 45) || (b =? 46) || (b =? 95))%N.

Definition encode_byte (b : N) : string :=
  if (b =? 32)%N then "+"
  else if unreserved b then String (ascii_of_N b) ""
  else percent_encode b.

(** UTF-8 of a code point below 256. *)
Definition utf8 (c : ascii) : list N :=
  let n := N_of_ascii c in
  if (n <? 128)%N then [n] else [192 + n / 64; 128 + n mod 64]%N.

Definition encode_char (c : ascii) : string :=
  String.concat "" (map encode_byte (utf8 c)).

Fixpoint urlencode (s : string) : string :=
  match s with
  | EmptyString => EmptyString
  | String c s' => encode_char c ++ urlencode s'
  end.

Definition serialize_pair (x : string * string) : string :=
  urlencode (fst x) ++ "=" ++ urlencode (snd x).

(** [toString()], also what a template literal makes of the object. *)
Definition toString (p : t) : string := String.concat "&" (map serialize_pair p).

End URLSearchParams.

(** ** The axios instance

    What the class relies on: a request config is merged with the
    instance defaults (a header of the config overrides the default of the
    same name), query parameters whose value is [undefined] or [null] are
    left out and an array goes out element by element, the body goes
    through [transformRequest], and the resulting
    request is handed to the adapter, which resolves with a response or
    rejects.  The adapter may answer by the requests sent before; the
    instance records what it sent. *)

Module Axios.

Inductive payload : Type :=
| Plain (v : value)
| SearchParams (p : URLSearchParams.t).

Record RequestConfig : Type := {
  method : string;
  url : string;
  headers : gmap string string;
  params : list (string * value);
  data : option payload;
}.

Inductive wire_body : Type :=
| NoBody
| TextBody (s : string)
| JsonBody (v : value).

Record Request : Type := {
  req_method : string;
  req_url : string;
  req_baseURL : option string;
  req_headers : gmap string string;
  req_query : list (string * value);
  req_body : wire_body;
}.

Inductive reply : Type :=
| Resolve (response : value)
| Reject (error : value).

Record AxiosInstance : Type := {
  baseURL : option string;
  default_headers : gmap string string;
  adapter : list Request -> Request -> reply;
  sent : list Request;
}.

Definition set_baseURL (u : string) (ax : AxiosInstance) : AxiosInstance :=
  {| baseURL := Some u; default_headers := default_headers ax;
     adapter := adapter ax; sent := sent ax |}.

Definition set_default_header (k v : string) (ax : AxiosInstance) : AxiosInstance :=
  {| baseURL := baseURL ax; default_headers := <[k := v]> (default_headers ax);
     adapter := adapter ax; sent := sent ax |}.

Definition record_sent (r : Request) (ax : AxiosInstance) : AxiosInstance :=
  {| baseURL := baseURL ax; default_headers := default_headers ax;
     adapter := adapter ax; sent := (sent ax ++ [r])%list |}.

(** How one entry of [params] is written into the query: nothing for
    [undefined] and [null]; for an array one pair per element, under the
    key followed by [[]], so nothing for an empty array; one pair
    otherwise.  The class passes strings, numbers and one array of strings
    ([ids]); an array element that is itself [undefined] or an object, and
    an object as a value, do not arise, and are kept here as they are. *)
Definition wire_param (kv : string * value) : list (string * value) :=
  match snd kv with
  | VUndefined | VNull => []
  | VArr xs => map (fun x => (fst kv ++ "[]", x)) xs
  | _ => [kv]
  end.

Definition transformRequest (d : option payload) : wire_body :=
  match d with
  | None | Some (Plain VUndefined) => NoBody
  | Some (SearchParams p) => TextBody (URLSearchParams.toString p)
  | Some (Plain (VStr s)) => TextBody s
  | Some (Plain v) => JsonBody (json v)
  end.

Definition outgoing (ax : AxiosInstance) (config : RequestConfig) : Request :=
  {| req_method := method config;
     req_url := url config;
     req_baseURL := baseURL ax;
     req_headers := headers config ∪ default_headers ax;
     req_query := flat_map wire_param (params config);
     req_body := transformRequest (data config) |}.

(** Calling the instance: [axiosInstance(config)]. *)
Definition request (config : RequestConfig) (ax : AxiosInstance)
  : promise * AxiosInstance :=
  let r := outgoing ax config in
  (match adapter ax (sent ax) r with
   | Resolve response => Fulfilled response
   | Reject error => Rejected error
   end,
   record_sent r ax).

End Axios.
Export Axios.

(** ** The client class *)

Module ClientConfig.
Record t : Type := {
  clientId : string;
  clientSecret : option string;
  accessToken : string;
  refreshToken : option string;
  scope : option string;
  redirectUri : string;
  customAxiosInstance : option AxiosInstance;
  autoRefreshToken : option bool;
}.
End ClientConfig.

(** The fields of a [SpotifyJS] object.  [accessToken] and [refreshToken]
    are declared as strings but are assigned from a reply without a check,
    so they hold whatever value the reply had. *)
Record SpotifyJS : Type := {
  clientId : string;
  clientSecret : option string;
  accessToken : value;
  refreshToken : value;
  scope : option string;
  redirectUri : string;
  _axiosInstance : AxiosInstance;
  autoRefreshToken : option bool;
}.

Definition with_accessToken (v : value) (c : SpotifyJS) : SpotifyJS :=
  {| clientId := clientId c; clientSecret := clientSecret c; accessToken := v;
     refreshToken := refreshToken c; scope := scope c; redirectUri := redirectUri c;
     _axiosInstance := _axiosInstance c; autoRefreshToken := autoRefreshToken c |}.

Definition with_refreshToken (v : value) (c : SpotifyJS) : SpotifyJS :=
  {| clientId := clientId c; clientSecret := clientSecret c;
     accessToken := accessToken c; refreshToken := v; scope := scope c;
     redirectUri := redirectUri c; _axiosInstance := _axiosInstance c;
     autoRefreshToken := autoRefreshToken c |}.

Definition with_axiosInstance (ax : AxiosInstance) (c : SpotifyJS) : SpotifyJS :=
  {| clientId := clientId c; clientSecret := clientSecret c;
     accessToken := accessToken c; refreshToken := refreshToken c; scope := scope c;
     redirectUri := redirectUri c; _axiosInstance := ax;
     autoRefreshToken := autoRefreshToken c |}.

(** *** Method bodies: state over the object, exceptions *)

Definition M (A : Type) : Type := SpotifyJS -> completion A * SpotifyJS.

(** An async function, called and run to its settled promise. *)
Definition Async : Type := SpotifyJS -> promise * SpotifyJS.

Definition ret {A} (a : A) : M A := fun c => (Normal a, c).

Definition bind {A B} (m : M A) (k : A -> M B) : M B :=
  fun c => match m c with
           | (Normal a, c') => k a c'
           | (Throw e, c') => (Throw e, c')
           end.

Definition throw {A} (e : value) : M A := fun c => (Throw e, c).

Definition try_catch {A} (body : M A) (handler : value -> M A) : M A :=
  fun c => match body c with
           | (Normal a, c') => (Normal a, c')
           | (Throw e, c') => handler e c'
           end.

Definition this : M SpotifyJS := fun c => (Normal c, c).

Definition eval {A} (r : completion A) : M A := fun c => (r, c).

Definition async (body : M value) : Async :=
  fun c => match body c with
           | (Normal v, c') => (Fulfilled v, c')
           | (Throw e, c') => (Rejected e, c')
           end.

Definition await (p : Async) : M value :=
  fun c => match p c with
           | (Fulfilled v, c') => (Normal v, c')
           | (Rejected e, c') => (Throw e, c')
           end.

(** A synchronous method that hands back the promise of an async call. *)
Definition call (p : Async) : M promise :=
  fun c => let (r, c') := p c in (Normal r, c').

#[global] Instance M_ret : MRet M := @ret.
#[global] Instance M_bind : MBind M := fun A B k m => bind m k.

Definition Error (message : string) : value := VErr "Error" message.

Definition axios_call (config : RequestConfig) : Async :=
  fun c => let (p, ax) := Axios.request config (_axiosInstance c) in
           (p, with_axiosInstance ax c).

(** Optional arguments and fields as the values they are at run time. *)
Definition of_string (o : option string) : value :=
  match o with Some s => VStr s | None => VUndefined end.

Definition of_number (o : option Z) : value :=
  match o with Some n => VNum n | None => VUndefined end.

Definition of_strings (l : list string) : value := VArr (map VStr l).

Definition of_string_array (o : option (list string)) : value :=
  match o with Some l => of_strings l | None => VUndefined end.

Record AuthorizeOptions : Type := {
  state : option string;
  opt_scope : option string;
  show_dialog : option bool;
}.

Record PageOptions : Type := {
  opt_limit : option Z;
  opt_offset : option Z;
}.

Section Class.

(** The global [atob] of the platform the class runs on, and what
    [axios.create()] returns there. *)
Variable atob : string -> completion string.
Variable axios_create : AxiosInstance.

Definition _makeApiRequest (config : RequestConfig) : Async :=
  async
    (try_catch
       (response ← await (axios_call config);
        eval (get_prop response "data"))
       (fun error => mret error)).

Definition getAccessToken : M value :=
  c ← this; mret (accessToken c).

Definition setAccessToken (token : value) : M unit :=
  fun c =>
    let c1 := with_accessToken token c in
    (Normal tt,
     with_axiosInstance
       (set_default_header "Authorization" ("Bearer " ++ to_string (accessToken c1))
          (_axiosInstance c1))
       c1).

Definition getRefreshToken : M value :=
  c ← this; mret (refreshToken c).

Definition setRefreshToken (token : value) : M unit :=
  fun c => (Normal tt, with_refreshToken token c).

Definition new_SpotifyJS (config : ClientConfig.t) : SpotifyJS :=
  let ax := default axios_create (ClientConfig.customAxiosInstance config) in
  let c :=
    {| clientId := ClientConfig.clientId config;
       clientSecret := ClientConfig.clientSecret config;
       accessToken := VUndefined;
       refreshToken := of_string (ClientConfig.refreshToken config);
       scope := ClientConfig.scope config;
       redirectUri := ClientConfig.redirectUri config;
       _axiosInstance := set_baseURL "https://api.spotify.com/v1" ax;
       autoRefreshToken := ClientConfig.autoRefreshToken config |} in
  snd (setAccessToken (VStr (ClientConfig.accessToken config)) c).

Definition generateAuthorizeUrl (options : option AuthorizeOptions) : M string :=
  c ← this;
  let params :=
    URLSearchParams.of_record
      [("client_id", clientId c);
       ("response_type", "code");
       ("redirect_uri", redirectUri c)] in
  let params :=
    match options ≫= state with
    | Some s => if truthy (VStr s) then URLSearchParams.append "state" s params else params
    | None => params
    end in
  let params :=
    match options ≫= opt_scope with
    | Some s => if truthy (VStr s) then URLSearchParams.append "scope" s params else params
    | None => params
    end in
  let params :=
    match options ≫= show_dialog with
    | Some b =>
        if truthy (VBool b)
        then URLSearchParams.append "show_dialog" (if b then "true" else "false") params
        else params
    | None => params
    end in
  let params := URLSearchParams.sort params in
  mret ("https://accounts.spotify.com/authorize?" ++ URLSearchParams.toString params).

Definition basic_credentials (c : SpotifyJS) : string :=
  clientId c ++ ":" ++ to_string (of_string (clientSecret c)).

Definition requestAccessToken (code : string) : Async :=
  async
    (c ← this;
     if negb (truthy (of_string (clientSecret c)))
     then throw (Error "Client secret must be set to request access token.")
     else
       try_catch
         (credentials ← eval (atob (basic_credentials c));
          response ← await
            (_makeApiRequest
               {| method := "POST";
                  url := "https://accounts.spotify.com/api/token";
                  headers :=
                    <["Authorization" := "Basic " ++ credentials]>
                      (<["Content-Type" := "application/x-www-form-urlencoded"]> ∅);
                  params := [];
                  data :=
                    Some (Plain (VStr (URLSearchParams.toString
                      (URLSearchParams.of_record
                         [("grant_type", "authorization_code");
                          ("code", code);
                          ("redirect_uri", redirectUri c)])))) |});
          access_token ← eval (get_prop response "access_token");
          setAccessToken access_token;;
          refresh_token ← eval (get_prop response "refresh_token");
          setRefreshToken refresh_token;;
          mret response)
         (fun error => mret error)).

Definition refreshAccessToken : M promise :=
  c ← this;
  if negb (truthy (of_string (clientSecret c)))
  then throw (Error "Client secret must be set to refresh token")
  else if negb (truthy (refreshToken c))
  then throw (Error "Refresh token is not set")
  else
    credentials ← eval (atob (basic_credentials c));
    call
      (_makeApiRequest
         {| method := "POST";
            url := "https://accounts.spotify.com/api/token";
            headers :=
              <["Authorization" := "Basic " ++ credentials]>
                (<["Content-Type" := "application/x-www-form-urlencoded"]> ∅);
            params := [];
            data :=
              Some (SearchParams
                (URLSearchParams.of_record
                   [("grant_type", "refresh_token");
                    ("refresh_token", to_string (refreshToken c))])) |}).

(** *** Endpoint methods *)

Definition getAlbumTracks (album_id : string) (market : option string)
    (limit offset : option Z) : Async :=
  _makeApiRequest
    {| method := "GET";
       url := "albums/" ++ album_id ++ "/tracks";
       headers := ∅;
       params := [("market", of_string market); ("limit", of_number limit);
                  ("offset", of_number offset)];
       data := None |}.

Definition getAlbum (album_id : string) (market : option string) : Async :=
  _makeApiRequest
    {| method := "GET";
       url := "albums/" ++ album_id;
       headers := ∅;
       params := [("market", of_string market)];
       data := None |}.

Definition getSeveralAlbums (ids : list string) (market : option string) : Async :=
  _makeApiRequest
    {| method := "GET";
       url := "albums";
       headers := ∅;
       params := [("ids", of_strings ids); ("market", of_string market)];
       data := None |}.

Definition getArtistAlbums (artist_id : string) (include_groups market : option string)
    (limit offset : option Z) : Async :=
  _makeApiRequest
    {| method := "GET";
       url := "artist/" ++ artist_id ++ "/albums";
       headers := ∅;
       params := [("include_groups", of_string include_groups);
                  ("market", of_string market);
                  ("limit", of_number limit);
                  ("offset", of_number offset)];
       data := None |}.

Definition getArtistsTopTracks (artist_id : string) (market : option string) : Async :=
  _makeApiRequest
    {| method := "GET";
       url := "artist/" ++ artist_id ++ "/top-tracks";
       headers := ∅;
       params := [("market", of_string market)];
       data := None |}.

Definition getArtist (artist_id : string) : Async :=
  _makeApiRequest
    {| method := "GET"; url := "artist/" ++ artist_id; headers := ∅;
       params := []; data := None |}.

Definition getPlaybackState : Async :=
  _makeApiRequest
    {| method := "GET"; url := "me/player"; headers := ∅; params := []; data := None |}.

Definition skipToNext (device_id : option string) : Async :=
  _makeApiRequest
    {| method := "POST"; url := "me/player/next"; headers := ∅;
       params := [("device_id", of_string device_id)]; data := None |}.

Definition skipToPrevious (device_id : option string) : Async :=
  _makeApiRequest
    {| method := "POST"; url := "me/player/previous"; headers := ∅;
       params := [("device_id", of_string device_id)]; data := None |}.

Definition pausePlayback (device_id : option string) : Async :=
  _makeApiRequest
    {| method := "PUT"; url := "me/player/pause"; headers := ∅;
       params := [("device_id", of_string device_id)]; data := None |}.

Definition startPlayback (device_id context_uri : option string)
    (uris : option (list string)) (offset : value) (position_ms : option Z) : Async :=
  _makeApiRequest
    {| method := "PUT";
       url := "me/player/play";
       headers := ∅;
       params := [("device_id", of_string device_id)];
       data :=
         Some (Plain (VObj [("context_uri", of_string context_uri);
                            ("uris", of_string_array uris);
                            ("offset", offset);
                            ("position_ms", of_number position_ms)])) |}.

Definition getAvailableDevices : Async :=
  _makeApiRequest
    {| method := "GET"; url := "me/player/devices"; headers := ∅;
       params := []; data := None |}.

Definition getPlaylist (playlist_id : string)
    (market fields additional_types : option string) : Async :=
  _makeApiRequest
    {| method := "GET";
       url := "playlists/" ++ playlist_id;
       headers := ∅;
       params := [("market", of_string market);
                  ("fields", of_string fields);
                  ("additional_types", of_string additional_types)];
       data := None |}.

Definition getPlaylistItems (playlist_id : string) (market fields : option string)
    (limit offset : option Z) (additional_types : option string) : Async :=
  _makeApiRequest
    {| method := "GET";
       url := "playlists/" ++ playlist_id ++ "/tracks";
       headers := ∅;
       params := [("market", of_string market);
                  ("fields", of_string fields);
                  ("limit", of_number limit);
                  ("offset", of_number offset);
                  ("additional_types", of_string additional_types)];
       data := None |}.

Definition setVolume (volume_percent : Z) (device_id : option string) : Async :=
  _makeApiRequest
    {| method := "PUT";
       url := "me/player/volume";
       headers := ∅;
       params := [("volume_percent", VNum volume_percent);
                  ("device_id", of_string device_id)];
       data := None |}.

Definition getCurrentUsersPlaylist (options : option PageOptions) : Async :=
  _makeApiRequest
    {| method := "GET";
       url := "me/playlists";
       headers := ∅;
       params := [("limit", of_number (options ≫= opt_limit));
                  ("offset", of_number (options ≫= opt_offset))];
       data := None |}.

Definition search (q type : string) (market limit offset : option string) : Async :=
  _makeApiRequest
    {| method := "GET";
       url := "search";
       headers := ∅;
       params := [("q", VStr q);
                  ("type", VStr type);
                  ("market", of_string market);
                  ("limit", of_string limit);
                  ("offset", of_string offset)];
       data := None |}.

Definition getCurrentUserProfile : Async :=
  _makeApiRequest
    {| method := "GET"; url := "me"; headers := ∅; params := []; data := None |}.

(** A call of one endpoint method with its arguments. *)
Inductive EndpointCall : Type :=
| GetAlbumTracks (album_id : string) (market : option string) (limit offset : option Z)
| GetAlbum (album_id : string) (market : option string)
| GetSeveralAlbums (ids : list string) (market : option string)
| GetArtistAlbums (artist_id : string) (include_groups market : option string)
    (limit offset : option Z)
| GetArtistsTopTracks (artist_id : string) (market : option string)
| GetArtist (artist_id : string)
| GetPlaybackState
| SkipToNext (device_id : option string)
| SkipToPrevious (device_id : option string)
| PausePlayback (device_id : option string)
| StartPlayback (device_id context_uri : option string) (uris : option (list string))
    (offset : value) (position_ms : option Z)
| GetAvailableDevices
| GetPlaylist (playlist_id : string) (market fields additional_types : option string)
| GetPlaylistItems (playlist_id : string) (market fields : option string)
    (limit offset : option Z) (additional_types : option string)
| SetVolume (volume_percent : Z) (device_id : option string)
| GetCurrentUsersPlaylist (options : option PageOptions)
| Search (q type : string) (market limit offset : option string)
| GetCurrentUserProfile.

Definition endpoint (m : EndpointCall) : Async :=
  match m with
  | GetAlbumTracks a m l o => getAlbumTracks a m l o
  | GetAlbum a m => getAlbum a m
  | GetSeveralAlbums i m => getSeveralAlbums i m
  | GetArtistAlbums a g m l o => getArtistAlbums a g m l o
  | GetArtistsTopTracks a m => getArtistsTopTracks a m
  | GetArtist a => getArtist a
  | GetPlaybackState => getPlaybackState
  | SkipToNext d => skipToNext d
  | SkipToPrevious d => skipToPrevious d
  | PausePlayback d => pausePlayback d
  | StartPlayback d c u o p => startPlayback d c u o p
  | GetAvailableDevices => getAvailableDevices
  | GetPlaylist p m f a => getPlaylist p m f a
  | GetPlaylistItems p m f l o a => getPlaylistItems p m f l o a
  | SetVolume v d => setVolume v d
  | GetCurrentUsersPlaylist o => getCurrentUsersPlaylist o
  | Search q t m l o => search q t m l o
  | GetCurrentUserProfile => getCurrentUserProfile
  end.

(** The optional parameters of each endpoint method (those marked [?] in
    its signature), with the value each has in the call. *)
Definition optional_arguments (m : EndpointCall) : list (string * value) :=
  match m with
  | GetAlbumTracks _ m l o =>
      [("market", of_string m); ("limit", of_number l); ("offset", of_number o)]
  | GetAlbum _ m => [("market", of_string m)]
  | GetSeveralAlbums _ m => [("market", of_string m)]
  | GetArtistAlbums _ g m l o =>
      [("include_groups", of_string g); ("market", of_string m);
       ("limit", of_number l); ("offset", of_number o)]
  | GetArtistsTopTracks _ m => [("market", of_string m)]
  | GetArtist _ | GetPlaybackState | GetAvailableDevices | GetCurrentUserProfile => []
  | SkipToNext d | SkipToPrevious d | PausePlayback d => [("device_id", of_string d)]
  | StartPlayback d c u _ p =>
      [("device_id", of_string d); ("context_uri", of_string c);
       ("uris", of_string_array u); ("position_ms", of_number p)]
  | GetPlaylist _ m f a =>
      [("market", of_string m); ("fields", of_string f);
       ("additional_types", of_string a)]
  | GetPlaylistItems _ m f l o a =>
      [("market", of_string m); ("fields", of_string f); ("limit", of_number l);
       ("offset", of_number o); ("additional_types", of_string a)]
  | SetVolume _ d => [("device_id", of_string d)]
  | GetCurrentUsersPlaylist o =>
      [("limit", of_number (o ≫= opt_limit)); ("offset", of_number (o ≫= opt_offset))]
  | Search _ _ m l o =>
      [("market", of_string m); ("limit", of_string l); ("offset", of_string o)]
  end.

(** Every way into the network: the dispatcher itself, the endpoint
    methods and the two token operations. *)
Inductive Operation : Type :=
| Dispatch (config : RequestConfig)
| Endpoint (m : EndpointCall)
| RequestAccessToken (code : string)
| RefreshAccessToken.

Definition run (op : Operation) : M promise :=
  match op with
  | Dispatch config => call (_makeApiRequest config)
  | Endpoint m => call (endpoint m)
  | RequestAccessToken code => call (requestAccessToken code)
  | RefreshAccessToken => refreshAccessToken
  end.

(** Endpoint calls made one after the other on the same object. *)
Fixpoint endpoints (ms : list EndpointCall) (c : SpotifyJS) : SpotifyJS :=
  match ms with
  | [] => c
  | m :: ms' => endpoints ms' (snd (endpoint m c))
  end.

End Class.

(** ** Reading a URL back

    The query of a URL is what follows the first [?]; its pairs are
    separated by [&], name and value by the first [=]. *)

Fixpoint after_first (sep : ascii) (s : string) : string :=
  match s with
  | EmptyString => EmptyString
  | String c s' => if Ascii.eqb c sep then s' else after_first sep s'
  end.

Fixpoint before_first (sep : ascii) (s : string) : string :=
  match s with
  | EmptyString => EmptyString
  | String c s' => if Ascii.eqb c sep then EmptyString else String c (before_first sep s')
  end.

Fixpoint split_on (sep : ascii) (s : string) : list string :=
  match s with
  | EmptyString => [EmptyString]
  | String c s' =>
      if Ascii.eqb c sep then EmptyString :: split_on sep s'
      else
        match split_on sep s' with
        | [] => [String c EmptyString]
        | w :: ws => String c w :: ws
        end
  end.

Definition query_pairs (u : string) : list (string * string) :=
  map (fun kv => (before_first "=" kv, after_first "=" kv))
    (split_on "&" (after_first "?" u)).

Definition query_keys (u : string) : list string := map fst (query_pairs u).

(** A character that does not occur in a string. *)
Fixpoint absent (sep : ascii) (s : string) : bool :=
  match s with
  | EmptyString => true
  | String c s' => negb (Ascii.eqb c sep) && absent sep s'
  end.

(** Names in code-unit order. *)
Definition name_le (a b : string) : Prop := String.leb a b = true.

Definition name_lt (a b : string) : Prop := String.ltb a b = true.

Definition by_name (x y : string * string) : Prop := name_le (fst x) (fst y).

(** The field names of a JSON body. *)
Definition body_fields (b : wire_body) : list string :=
  match b with
  | JsonBody (VObj fs) => map fst fs
  | _ => []
  end.

(** ** Observing a call

    What the dispatcher resolves with, given the adapter's reply: the
    [data] of the response, the TypeError of reading [data] off a missing
    response, or the error of a rejection. *)
Definition dispatched (r : reply) : value :=
  match r with
  | Resolve response =>
      match get_prop response "data" with
      | Normal v => v
      | Throw e => e
      end
  | Reject e => e
  end.

(** The adapter's reply to a config sent from the object as it is. *)
Definition transport_reply (c : SpotifyJS) (config : RequestConfig) : reply :=
  adapter (_axiosInstance c) (sent (_axiosInstance c))
    (outgoing (_axiosInstance c) config).

(** The object once it has sent a config. *)
Definition after_request (config : RequestConfig) (c : SpotifyJS) : SpotifyJS :=
  with_axiosInstance
    (record_sent (outgoing (_axiosInstance c) config) (_axiosInstance c)) c.

(** Between [c] and [c'] one request went out and the transport failed it
    with [e]. *)
Definition transport_failed (c c' : SpotifyJS) (e : value) : Prop :=
  exists r,
    sent (_axiosInstance c') = (sent (_axiosInstance c) ++ [r])%list
    /\ adapter (_axiosInstance c) (sent (_axiosInstance c)) r = Reject e.

(** Between [c] and [c'] one request went out and the transport resolved
    it with [response]. *)
Definition transport_succeeded (c c' : SpotifyJS) (response : value) : Prop :=
  exists r,
    sent (_axiosInstance c') = (sent (_axiosInstance c) ++ [r])%list
    /\ adapter (_axiosInstance c) (sent (_axiosInstance c)) r = Resolve response.

(** No request went out between [c] and [c']. *)
Definition nothing_sent (c c' : SpotifyJS) : Prop :=
  sent (_axiosInstance c') = sent (_axiosInstance c).

(** The Authorization header a request goes out with. *)
Definition authorization (r : Request) : option string := req_headers r !! "Authorization".

(** The default Authorization header is the bearer form of the stored
    access token. *)
Definition bearer_in_sync (c : SpotifyJS) : Prop :=
  default_headers (_axiosInstance c) !! "Authorization"
  = Some ("Bearer " ++ to_string (accessToken c)).

(** Whether an operation hands a failure value back untouched.
    [requestAccessToken] reads [access_token] off what the dispatcher gave
    it, and that read throws on [undefined] and [null]. *)
Definition error_object (op : Operation) (e : value) : Prop :=
  match op with
  | RequestAccessToken _ => is_nullish e = false
  | _ => True
  end.

(** The config both token operations post, up to the body. *)
Definition token_config (credentials : string) (body : payload) : RequestConfig :=
  {| method := "POST";
     url := "https://accounts.spotify.com/api/token";
     headers :=
       <["Authorization" := "Basic " ++ credentials]>
         (<["Content-Type" := "application/x-www-form-urlencoded"]> ∅);
     params := [];
     data := Some body |}.

Definition authorization_code_body (code : string) (c : SpotifyJS) : payload :=
  Plain (VStr (URLSearchParams.toString
    (URLSearchParams.of_record
       [("grant_type", "authorization_code");
        ("code", code);
        ("redirect_uri", redirectUri c)]))).

Definition refresh_token_body (c : SpotifyJS) : payload :=
  SearchParams
    (URLSearchParams.of_record
       [("grant_type", "refresh_token");
        ("refresh_token", to_string (refreshToken c))]).

(** The pairs [generateAuthorizeUrl] appends to the three fixed ones. *)
Definition appended_parameters (o : option AuthorizeOptions) : URLSearchParams.t :=
  ((match o ≫= state with
    | Some s => if truthy (VStr s) then [("state", s)] else []
    | None => []
    end)
   ++ (match o ≫= opt_scope with
       | Some s => if truthy (VStr s) then [("scope", s)] else []
       | None => []
       end)
   ++ (match o ≫= show_dialog with
       | Some true => [("show_dialog", "true")]
       | _ => []
       end))%list.

(** ** Sample objects

    An axios instance whose adapter gives the same answer to every
    request, and the client of the repository's test file
    ([clientId] and [redirectUri] both ["test"]) built around it. *)

Definition answering (r : reply) : AxiosInstance :=
  {| baseURL := None; default_headers := ∅; adapter := fun _ _ => r; sent := [] |}.

Definition test_config (secret refresh : option string) (ax : AxiosInstance)
  : ClientConfig.t :=
  {| ClientConfig.clientId := "test";
     ClientConfig.clientSecret := secret;
     ClientConfig.accessToken := "old-access";
     ClientConfig.refreshToken := refresh;
     ClientConfig.scope := None;
     ClientConfig.redirectUri := "test";
     ClientConfig.customAxiosInstance := Some ax;
     ClientConfig.autoRefreshToken := None |}.

Definition test_client (secret refresh : option string) (r : reply) : SpotifyJS :=
  new_SpotifyJS (answering r) (test_config secret refresh (answering r)).

Definition token_response : value :=
  VObj [("data",
         VObj [("access_token", VStr "new-access");
               ("token_type", VStr "Bearer");
               ("expires_in", VNum 3600);
               ("refresh_token", VStr "new-refresh");
               ("scope", VStr "user-read-private")])].

Definition network_error : value := VErr "AxiosError" "Network Error".

Definition all_options : AuthorizeOptions :=
  {| state := Some "s"; opt_scope := Some "sc"; show_dialog := Some true |}.

(** ** Reading a query value back

    The application/x-www-form-urlencoded parser: [+] is a space, [%HH] is
    the byte [HH], anything else stands for itself; the bytes are then
    decoded as UTF-8.  A code point of 256 or more is outside the strings
    of this model and gives [None]. *)

Definition hex_value (c : ascii) : option N :=
  let n := N_of_ascii c in
  if ((48 <=? n) && (n <=? 57))%N then Some (n - 48)%N
  else if ((65 <=? n) && (n <=? 70))%N then Some (n - 55)%N
  else if ((97 <=? n) && (n <=? 102))%N then Some (n - 87)%N
  else None.

Fixpoint percent_decode (s : string) : list N :=
  match s with
  | EmptyString => []
  | String c s' =>
      if Ascii.eqb c "+" then 32%N :: percent_decode s'
      else if Ascii.eqb c "%" then
        match s' with
        | String h (String l r) =>
            match hex_value h, hex_value l with
            | Some a, Some b => (a * 16 + b)%N :: percent_decode r
            | _, _ => 37%N :: percent_decode s'
            end
        | _ => 37%N :: percent_decode s'
        end
      else N_of_ascii c :: percent_decode s'
  end.

Fixpoint utf8_decode (bs : list N) : option string :=
  match bs with
  | [] => Some EmptyString
  | b :: r =>
      if (b <? 128)%N then option_map (String (ascii_of_N b)) (utf8_decode r)
      else
        match r with
        | b2 :: r' =>
            if (((b =? 194) || (b =? 195)) && (128 <=? b2) && (b2 <? 192))%N
            then option_map (String (ascii_of_N ((b - 192) * 64 + (b2 - 128))))
                   (utf8_decode r')
            else None
        | [] => None
        end
  end.

Definition urldecode (s : string) : option string := utf8_decode (percent_decode s).

(** The pairs of a URL's query, decoded. *)
Definition decoded_query (u : string) : list (option string * option string) :=
  map (fun kv => (urldecode (fst kv), urldecode (snd kv))) (query_pairs u).

(** ** The fields no method reads *)

Definition with_scope (s : option string) (c : SpotifyJS) : SpotifyJS :=
  {| clientId := clientId c; clientSecret := clientSecret c;
     accessToken := accessToken c; refreshToken := refreshToken c; scope := s;
     redirectUri := redirectUri c; _axiosInstance := _axiosInstance c;
     autoRefreshToken := autoRefreshToken c |}.

Definition with_autoRefreshToken (b : option bool) (c : SpotifyJS) : SpotifyJS :=
  {| clientId := clientId c; clientSecret := clientSecret c;
     accessToken := accessToken c; refreshToken := refreshToken c; scope := scope c;
     redirectUri := redirectUri c; _axiosInstance := _axiosInstance c;
     autoRefreshToken := b |}.

(** A text that occurs somewhere in a string. *)
Fixpoint occurs (needle s : string) : bool :=
  String.prefix needle s
  || match s with
     | EmptyString => false
     | String _ s' => occurs needle s'
     end.

(** The arguments an endpoint method writes into its path. *)
Definition path_arguments (m : EndpointCall) : list string :=
  match m with
  | GetAlbumTracks album_id _ _ _ | GetAlbum album_id _ => [album_id]
  | GetArtistAlbums artist_id _ _ _ _ | GetArtistsTopTracks artist_id _
  | GetArtist artist_id => [artist_id]
  | GetPlaylist playlist_id _ _ _ | GetPlaylistItems playlist_id _ _ _ _ _ =>
      [playlist_id]
  | _ => []
  end.

(** The one argument declared [any]: [offset] of [startPlayback]. *)
Definition untyped_arguments (m : EndpointCall) : list (string * value) :=
  match m with
  | StartPlayback _ _ _ offset _ => [("offset", offset)]
  | _ => []
  end.

(** The required query arguments of each endpoint method, with the value
    each has in the call. *)
Definition required_arguments (m : EndpointCall) : list (string * value) :=
  match m with
  | GetSeveralAlbums ids _ => [("ids", of_strings ids)]
  | SetVolume volume_percent _ => [("volume_percent", VNum volume_percent)]
  | Search q type _ _ _ => [("q", VStr q); ("type", VStr type)]
  | _ => []
  end.

(** ** The public methods, one call after the other *)

Inductive Step : Type :=
| Invoke (op : Operation)
| SetAccessToken (token : string)
| SetRefreshToken (token : string)
| GetAccessToken
| GetRefreshToken
| GenerateAuthorizeUrl (options : option AuthorizeOptions).

Definition step (atob : string -> completion string) (s : Step) (c : SpotifyJS)
  : SpotifyJS :=
  match s with
  | Invoke op => snd (run atob op c)
  | SetAccessToken token => snd (setAccessToken (VStr token) c)
  | SetRefreshToken token => snd (setRefreshToken (VStr token) c)
  | GetAccessToken => snd (getAccessToken c)
  | GetRefreshToken => snd (getRefreshToken c)
  | GenerateAuthorizeUrl options => snd (generateAuthorizeUrl options c)
  end.

Definition steps (atob : string -> completion string) (l : list Step) (c : SpotifyJS)
  : SpotifyJS :=
  fold_left (fun c s => step atob s c) l c.

(** * Properties *)

(** ** The platform model on examples *)

Example atob_decodes : Base64.atob "dGVzdDpzZWNyZXQ=" = Normal "test:secret".
Proof. reflexivity. Qed.

Example atob_forgives : Base64.atob " dGVz dA " = Normal "test".
Proof. reflexivity. Qed.

Example atob_padding :
  Base64.atob "YQ==" = Normal "a" /\ Base64.atob "YWI=" = Normal "ab"
  /\ Base64.atob "YWJj" = Normal "abc" /\ Base64.atob "" = Normal "".
Proof. repeat split. Qed.

Example atob_malformed :
  Base64.atob "Y" = Throw Base64.InvalidCharacterError
  /\ Base64.atob "YQ=" = Throw Base64.InvalidCharacterError
  /\ Base64.atob "YQ=a" = Throw Base64.InvalidCharacterError.
Proof. repeat split. Qed.

Example btoa_encodes : Base64.btoa "test:secret" = Normal "dGVzdDpzZWNyZXQ=".
Proof. reflexivity. Qed.

Example atob_rejects : Base64.atob "test:secret" = Throw Base64.InvalidCharacterError.
Proof. reflexivity. Qed.

Example toString_example :
  URLSearchParams.toString [("a b", "x&y=z"); ("k", "caf" ++ String (ascii_of_nat 233) "")]
  = "a+b=x%26y%3Dz&k=caf%C3%A9".
Proof. reflexivity. Qed.

Example sort_example :
  URLSearchParams.sort [("b", "1"); ("a", "2"); ("b", "0"); ("a", "3")]
  = [("a", "2"); ("a", "3"); ("b", "1"); ("b", "0")].
Proof. reflexivity. Qed.

Example json_example :
  json (VObj [("context_uri", VUndefined); ("uris", VArr [VStr "u"; VUndefined]);
              ("offset", VObj [("position", VNum 5); ("uri", VUndefined)])])
  = VObj [("uris", VArr [VStr "u"; VNull]); ("offset", VObj [("position", VNum 5)])].
Proof. reflexivity. Qed.

(** ** [atob] on a credential string

    A colon is not a base64 character, so no string of the form
    [id:secret] decodes. *)

Section Base64Facts.
Import Base64.

Lemma drop_trailing_pad_In (c : ascii) (d : list ascii) :
  In c d -> c <> "="%char -> In c (drop_trailing_pad d).
Proof.
  intros Hin Hne. unfold drop_trailing_pad.
  destruct (rev d) as [|x r] eqn:E; [exact Hin|].
  destruct (Ascii.eqb_spec x "="%char) as [->|_]; [|exact Hin].
  apply in_rev in Hin. rewrite E in Hin.
  destruct Hin as [Hx|Hr]; [congruence|]. now apply in_rev in Hr.
Qed.

Lemma strip_padding_In (c : ascii) (d : list ascii) :
  In c d -> c <> "="%char -> In c (strip_padding d).
Proof.
  intros Hin Hne. unfold strip_padding.
  destruct (length d mod 4 =? 0)%nat; [|exact Hin].
  auto using drop_trailing_pad_In.
Qed.

Lemma sextets_outside (c : ascii) (d : list ascii) :
  In c d -> sextet_of_char c = None -> sextets d = None.
Proof.
  induction d as [|x d IH]; simpl; [tauto|].
  intros [->|Hin] Hc.
  - now rewrite Hc.
  - rewrite (IH Hin Hc). now destruct (sextet_of_char x).
Qed.

Lemma decode_outside (c : ascii) (s : string) :
  In c (list_ascii_of_string s) ->
  is_ascii_whitespace c = false -> c <> "="%char -> sextet_of_char c = None ->
  forgiving_base64_decode s = None.
Proof.
  intros Hin Hws Hne Hc. unfold forgiving_base64_decode.
  set (d := strip_padding _).
  assert (In c d) as Hd.
  { apply strip_padding_In; [|exact Hne].
    apply filter_In. split; [exact Hin|]. now rewrite Hws. }
  rewrite (sextets_outside c d Hd Hc). now destruct (_ =? _)%nat.
Qed.

Lemma list_ascii_of_string_app (a b : string) :
  list_ascii_of_string (a ++ b) = (list_ascii_of_string a ++ list_ascii_of_string b)%list.
Proof. induction a as [|x a IH]; simpl; [reflexivity|]. now rewrite IH. Qed.

Lemma atob_credentials (id secret : string) :
  atob (id ++ ":" ++ secret) = Throw InvalidCharacterError.
Proof.
  unfold atob.
  rewrite (decode_outside ":"%char); try reflexivity; [|discriminate].
  rewrite list_ascii_of_string_app. apply in_or_app. right. now left.
Qed.

End Base64Facts.

(** ** [atob] undoes [btoa] *)

Section Base64RoundTrip.
Import Base64.

Local Open Scope N_scope.

Ltac euclid := zify; Z.to_euclidean_division_equations; lia.

Lemma recombine24 (n : N) :
  n / 262144 * 262144 + (n / 4096) mod 64 * 4096 + (n / 64) mod 64 * 64 + n mod 64 = n.
Proof.
  replace (n / 4096) with (n / 64 / 64) by (now rewrite N.Div0.div_div).
  replace (n / 262144) with (n / 64 / 64 / 64) by (now rewrite !N.Div0.div_div).
  euclid.
Qed.

Lemma recombine18 (n : N) :
  n / 4096 * 4096 + (n / 64) mod 64 * 64 + n mod 64 = n.
Proof.
  replace (n / 4096) with (n / 64 / 64) by (now rewrite N.Div0.div_div).
  euclid.
Qed.

Lemma char_of_sextet_inv (i : N) :
  i < 64 ->
  sextet_of_char (char_of_sextet i) = Some i
  /\ is_ascii_whitespace (char_of_sextet i) = false
  /\ char_of_sextet i <> "="%char.
Proof.
  intros Hi.
  assert (In i (map N.of_nat (seq 0 64))) as Hin.
  { apply in_map_iff. exists (N.to_nat i). split; [lia|]. apply in_seq. lia. }
  assert (forallb
            (fun i =>
               match sextet_of_char (char_of_sextet i) with
               | Some j => j =? i
               | None => false
               end
               && negb (is_ascii_whitespace (char_of_sextet i))
               && negb (Ascii.eqb (char_of_sextet i) "="))
            (map N.of_nat (seq 0 64)) = true) as Hall by (vm_compute; reflexivity).
  rewrite forallb_forall in Hall. specialize (Hall i Hin).
  apply andb_prop in Hall as [[H1 H2]%andb_prop H3].
  destruct (sextet_of_char (char_of_sextet i)) as [j|]; [|discriminate].
  apply N.eqb_eq in H1 as ->.
  split; [reflexivity|]. split; [now destruct (is_ascii_whitespace _)|].
  intros E. rewrite E in H3. discriminate.
Qed.

Lemma list_ind3 {A} (P : list A -> Prop) :
  P [] -> (forall a, P [a]) -> (forall a b, P [a; b]) ->
  (forall a b c r, P r -> P (a :: b :: c :: r)) ->
  forall l, P l.
Proof.
  intros H0 H1 H2 H3. fix IH 1.
  intros [|a [|b [|c r]]]; [exact H0 | apply H1 | apply H2 | apply H3, IH].
Qed.

(** The encoding is the characters of some sextets, then padding; the
    sextets decode to the bytes. *)
Lemma sextets_of_bytes_shape (bs : list N) :
  Forall (fun b => b < 256) bs ->
  exists l pad,
    sextets_of_bytes bs = (map char_of_sextet l ++ pad)%list
    /\ Forall (fun i => i < 64) l
    /\ (pad = [] \/ pad = ["="%char] \/ pad = ["="%char; "="%char])
    /\ ((length l + length pad) mod 4 = 0)%nat
    /\ bytes_of_sextets l = map ascii_of_N bs.
Proof.
  induction bs as [|a|a b|a b c r IH] using list_ind3; intros Hb.
  - exists [], []. repeat split; auto.
  - apply Forall_cons in Hb as [Ha _].
    exists [a * 16 / 64; (a * 16) mod 64], ["="%char; "="%char].
    split; [reflexivity|]. split; [repeat constructor; euclid|].
    split; [auto|]. split; [reflexivity|].
    cbn. repeat f_equal. euclid.
  - apply Forall_cons in Hb as [Ha [Hb _]%Forall_cons].
    set (n := (a * 256 + b) * 4).
    exists [n / 4096; (n / 64) mod 64; n mod 64], ["="%char].
    split; [reflexivity|]. split; [repeat constructor; subst n; euclid|].
    split; [auto|]. split; [reflexivity|].
    cbn. rewrite recombine18. subst n. repeat f_equal; euclid.
  - apply Forall_cons in Hb as [Ha [Hb [Hc Hr]%Forall_cons]%Forall_cons].
    destruct (IH Hr) as (l & pad & He & Hl & Hp & Hlen & Hd).
    set (n := a * 65536 + b * 256 + c).
    exists (n / 262144 :: (n / 4096) mod 64 :: (n / 64) mod 64 :: n mod 64 :: l), pad.
    split; [cbn; fold n; now rewrite He|].
    split; [repeat constructor; try exact Hl; subst n; euclid|].
    split; [exact Hp|].
    split.
    { cbn [length]. etransitivity; [|exact Hlen].
      change (S (S (S (S (length l)))) + length pad)%nat
        with (4 + (length l + length pad))%nat.
      rewrite Nat.add_comm. exact (Nat.Div0.mod_add (length l + length pad) 1 4). }
    cbn. rewrite recombine24, Hd. subst n. repeat f_equal; euclid.
Qed.

Lemma filter_all {A} (f : A -> bool) (l : list A) :
  Forall (fun x => f x = true) l -> List.filter f l = l.
Proof.
  induction 1 as [|x l Hx _ IH]; simpl; [reflexivity|]. now rewrite Hx, IH.
Qed.

Lemma drop_trailing_pad_snoc (x : list ascii) :
  drop_trailing_pad (x ++ ["="%char]) = x.
Proof.
  unfold drop_trailing_pad. rewrite rev_app_distr. simpl. apply rev_involutive.
Qed.

Lemma drop_trailing_pad_clean (x : list ascii) :
  Forall (fun c => c <> "="%char) x -> drop_trailing_pad x = x.
Proof.
  intros Hx. unfold drop_trailing_pad.
  destruct (rev x) as [|c r] eqn:E; [reflexivity|].
  destruct (Ascii.eqb_spec c "="%char) as [->|_]; [|reflexivity].
  exfalso. rewrite List.Forall_forall in Hx. apply (Hx "="%char); [|reflexivity].
  apply in_rev. rewrite E. now left.
Qed.

Lemma sextets_map (l : list N) :
  Forall (fun i => i < 64) l -> sextets (map char_of_sextet l) = Some l.
Proof.
  induction 1 as [|i l Hi _ IH]; simpl; [reflexivity|].
  destruct (char_of_sextet_inv i Hi) as [-> _]. now rewrite IH.
Qed.

(** Decoding an encoding gives the string back. *)
Theorem decode_encode (s : string) :
  forgiving_base64_decode (base64_encode s) = Some s.
Proof.
  unfold forgiving_base64_decode, base64_encode.
  rewrite list_ascii_of_string_of_list_ascii.
  destruct (sextets_of_bytes_shape (map N_of_ascii (list_ascii_of_string s)))
    as (l & pad & -> & Hl & Hp & Hlen & Hd).
  { apply List.Forall_forall. intros b (c & <- & _)%in_map_iff. apply N_ascii_bounded. }
  assert (Forall (fun c => is_ascii_whitespace c = false /\ c <> "="%char)
            (map char_of_sextet l)) as Hclean.
  { apply List.Forall_forall. intros c (i & <- & Hi)%in_map_iff.
    rewrite List.Forall_forall in Hl. now destruct (char_of_sextet_inv i (Hl i Hi)) as (_ & ? & ?). }
  rewrite filter_all.
  2:{ apply Forall_app. split.
      - eapply Forall_impl; [exact Hclean|]. now intros c [-> _].
      - destruct Hp as [->|[->| ->]]; repeat constructor. }
  assert (strip_padding (map char_of_sextet l ++ pad) = map char_of_sextet l) as ->.
  { unfold strip_padding. rewrite length_app, length_map, Hlen. cbn [Nat.eqb].
    assert (drop_trailing_pad (map char_of_sextet l) = map char_of_sextet l) as Hc.
    { apply drop_trailing_pad_clean. eapply Forall_impl; [exact Hclean|]. now intros c [_ ?]. }
    destruct Hp as [->|[->| ->]].
    - rewrite app_nil_r. now rewrite !Hc.
    - now rewrite drop_trailing_pad_snoc, Hc.
    - change [ "="%char; "="%char ] with ([ "="%char ] ++ [ "="%char ])%list.
      rewrite app_assoc. now rewrite !drop_trailing_pad_snoc. }
  rewrite length_map.
  assert ((length l mod 4 =? 1)%nat = false) as ->.
  { apply Nat.eqb_neq. intros E.
    rewrite Nat.Div0.add_mod, E in Hlen.
    destruct Hp as [->|[->| ->]]; discriminate Hlen. }
  rewrite (sextets_map l Hl), Hd, map_map.
  f_equal. rewrite <- (string_of_list_ascii_of_string s) at 2. f_equal.
  rewrite <- (map_id (list_ascii_of_string s)) at 2.
  apply map_ext. intros c. apply ascii_N_embedding.
Qed.

(** X18.  [atob], the function the two token operations call on
    [clientId:clientSecret], is the inverse of the encoder [btoa]: applied
    to what [btoa] returns for a string, it returns that string. *)
Corollary atob_btoa (s r : string) : btoa s = Normal r -> atob r = Normal s.
Proof. intros [= <-]. unfold atob. now rewrite decode_encode. Qed.

End Base64RoundTrip.

Lemma atob_btoa_witness : Base64.atob "dGVzdDpzZWNyZXQ=" = Normal "test:secret".
Proof. apply (atob_btoa "test:secret"). reflexivity. Defined.

(** ** Serialising and reading back a query *)

Section QueryFacts.
Import URLSearchParams.

Lemma absent_app (sep : ascii) (a b : string) :
  absent sep (a ++ b) = absent sep a && absent sep b.
Proof.
  induction a as [|x a IH]; simpl; [reflexivity|].
  now rewrite IH, andb_assoc.
Qed.

Lemma encode_char_plain (c : ascii) :
  absent "&" (encode_char c) && absent "=" (encode_char c) = true.
Proof. destruct c as [[] [] [] [] [] [] [] []]; reflexivity. Qed.

Lemma urlencode_plain (s : string) :
  absent "&" (urlencode s) = true /\ absent "=" (urlencode s) = true.
Proof.
  induction s as [|c s [IH1 IH2]]; simpl; [split; reflexivity|].
  rewrite !absent_app, IH1, IH2.
  destruct (andb_prop _ _ (encode_char_plain c)) as [-> ->]. split; reflexivity.
Qed.

Lemma before_first_app (sep : ascii) (a b : string) :
  absent sep a = true -> before_first sep (a ++ String sep b) = a.
Proof.
  induction a as [|x a IH]; simpl.
  - now rewrite Ascii.eqb_refl.
  - intros [Hx Ha]%andb_prop. destruct (Ascii.eqb x sep); [discriminate|].
    now rewrite IH.
Qed.

Lemma after_first_app (sep : ascii) (a b : string) :
  absent sep a = true -> after_first sep (a ++ String sep b) = b.
Proof.
  induction a as [|x a IH]; simpl.
  - now rewrite Ascii.eqb_refl.
  - intros [Hx Ha]%andb_prop. destruct (Ascii.eqb x sep); [discriminate|].
    now apply IH.
Qed.

Lemma split_on_absent (sep : ascii) (a : string) :
  absent sep a = true -> split_on sep a = [a].
Proof.
  induction a as [|x a IH]; simpl; [reflexivity|].
  intros [Hx Ha]%andb_prop. destruct (Ascii.eqb x sep); [discriminate|].
  now rewrite IH.
Qed.

Lemma split_on_app (sep : ascii) (a b : string) :
  absent sep a = true -> split_on sep (a ++ String sep b) = a :: split_on sep b.
Proof.
  induction a as [|x a IH]; simpl.
  - now rewrite Ascii.eqb_refl.
  - intros [Hx Ha]%andb_prop. destruct (Ascii.eqb x sep); [discriminate|].
    now rewrite IH.
Qed.

Lemma serialize_pair_plain (x : string * string) :
  absent "&" (serialize_pair x) = true.
Proof.
  unfold serialize_pair. rewrite !absent_app.
  destruct (urlencode_plain (fst x)) as [-> _].
  destruct (urlencode_plain (snd x)) as [-> _]. reflexivity.
Qed.

Lemma serialize_pair_read (x : string * string) :
  before_first "=" (serialize_pair x) = urlencode (fst x)
  /\ after_first "=" (serialize_pair x) = urlencode (snd x).
Proof.
  unfold serialize_pair.
  destruct (urlencode_plain (fst x)) as [_ H].
  split; [now apply before_first_app | now apply after_first_app].
Qed.

Lemma split_on_toString (p : t) :
  p <> [] -> split_on "&" (toString p) = map serialize_pair p.
Proof.
  unfold toString. induction p as [|x p IH]; [congruence|]. intros _.
  destruct p as [|y p].
  - simpl. apply split_on_absent, serialize_pair_plain.
  - change (String.concat "&" (map serialize_pair (x :: y :: p)))
      with (serialize_pair x ++ String "&" (String.concat "&" (map serialize_pair (y :: p)))).
    rewrite split_on_app by apply serialize_pair_plain.
    rewrite IH by discriminate. reflexivity.
Qed.

(** Reading back the query of a URL made of a prefix up to its first [?]
    and a serialised parameter list gives the encoded pairs, in order. *)
Lemma query_pairs_toString (base : string) (p : t) :
  absent "?" base = true -> p <> [] ->
  query_pairs (base ++ String "?" (toString p))
  = map (fun x => (urlencode (fst x), urlencode (snd x))) p.
Proof.
  intros Hbase Hp. unfold query_pairs.
  rewrite after_first_app by exact Hbase.
  rewrite split_on_toString by exact Hp.
  rewrite map_map. apply map_ext. intros x.
  now destruct (serialize_pair_read x) as [-> ->].
Qed.

(** *** [sort] sorts *)

Lemma ltb_leb (a b : string) : String.ltb a b = true -> name_le a b.
Proof.
  unfold String.ltb, name_le, String.leb.
  now destruct (String.compare a b).
Qed.

Lemma not_ltb_leb (a b : string) : String.ltb a b = false -> name_le b a.
Proof.
  unfold String.ltb, name_le, String.leb.
  rewrite (String.compare_antisym b a).
  now destruct (String.compare a b).
Qed.

Lemma insert_by_name_HdRel (a x : string * string) (l : t) :
  by_name a x -> HdRel by_name a l -> HdRel by_name a (insert_by_name x l).
Proof.
  intros Hax Hl. destruct l as [|y r]; simpl; [now constructor|].
  destruct (String.ltb (fst x) (fst y)); constructor; [exact Hax|].
  now inversion Hl.
Qed.

Lemma insert_by_name_Sorted (x : string * string) (l : t) :
  Sorted by_name l -> Sorted by_name (insert_by_name x l).
Proof.
  induction 1 as [|y r Hr IH Hy]; simpl; [now repeat constructor|].
  destruct (String.ltb (fst x) (fst y)) eqn:E.
  - constructor; [now constructor|]. constructor. now apply ltb_leb.
  - constructor; [exact IH|].
    apply insert_by_name_HdRel; [|exact Hy]. now apply not_ltb_leb.
Qed.

Lemma insert_by_name_Permutation (x : string * string) (l : t) :
  insert_by_name x l ≡ₚ x :: l.
Proof.
  induction l as [|y r IH]; simpl; [reflexivity|].
  destruct (String.ltb (fst x) (fst y)); [reflexivity|].
  rewrite IH. apply Permutation_swap.
Qed.

Lemma sort_from (p acc : t) :
  Sorted by_name acc ->
  Sorted by_name (fold_left (fun a x => insert_by_name x a) p acc)
  /\ fold_left (fun a x => insert_by_name x a) p acc ≡ₚ (acc ++ p)%list.
Proof.
  revert acc. induction p as [|x p IH]; intros acc Hacc; simpl.
  - split; [exact Hacc|]. now rewrite app_nil_r.
  - destruct (IH (insert_by_name x acc)) as [H1 H2];
      [now apply insert_by_name_Sorted|].
    split; [exact H1|]. rewrite H2, insert_by_name_Permutation.
    apply Permutation_middle.
Qed.

(** The model of [sort()] returns its pairs, all of them, in name order. *)
Lemma sort_sorted (p : t) : Sorted by_name (sort p) /\ sort p ≡ₚ p.
Proof. apply (sort_from p []). constructor. Qed.

End QueryFacts.

(** ** [generateAuthorizeUrl] *)

Section AuthorizeUrl.
Import URLSearchParams.

Lemma sort_nonempty (p : t) : p <> [] -> sort p <> [].
Proof.
  intros Hp Hs. destruct (sort_sorted p) as [_ H].
  rewrite Hs in H. symmetry in H. now apply Permutation_nil_r in H.
Qed.

(** The URL is the authorize endpoint followed by the sorted parameters;
    the object is only read. *)
Lemma generateAuthorizeUrl_eq (c : SpotifyJS) (o : option AuthorizeOptions) :
  generateAuthorizeUrl o c
  = (Normal ("https://accounts.spotify.com/authorize"
             ++ String "?"
                  (toString
                     (sort ([("client_id", clientId c);
                             ("response_type", "code");
                             ("redirect_uri", redirectUri c)]
                            ++ appended_parameters o)%list))),
     c).
Proof.
  unfold generateAuthorizeUrl, appended_parameters, append, of_record.
  destruct o as [[[[|a s]|] [[|b sc]|] [[]|]]|]; reflexivity.
Qed.

Lemma authorize_query_pairs (c : SpotifyJS) (o : option AuthorizeOptions) :
  exists u,
    generateAuthorizeUrl o c = (Normal u, c)
    /\ query_pairs u
       = map (fun x => (urlencode (fst x), urlencode (snd x)))
           (sort ([("client_id", clientId c);
                   ("response_type", "code");
                   ("redirect_uri", redirectUri c)]
                  ++ appended_parameters o)%list).
Proof.
  eexists. split; [apply generateAuthorizeUrl_eq|].
  apply query_pairs_toString; [reflexivity|].
  apply sort_nonempty. discriminate.
Qed.

Ltac sorted_parameters :=
  unfold appended_parameters;
  match goal with
  | |- context [sort ?l] =>
      let r := eval vm_compute in (sort l) in change (sort l) with r
  end;
  cbn [map fst snd];
  change (urlencode "client_id") with "client_id";
  change (urlencode "redirect_uri") with "redirect_uri";
  change (urlencode "response_type") with "response_type";
  change (urlencode "scope") with "scope";
  change (urlencode "show_dialog") with "show_dialog";
  change (urlencode "state") with "state";
  change (urlencode "true") with "true".

(** C8.  For a client whose [clientId] and [redirectUri] are both ["test"],
    [generateAuthorizeUrl()] without options returns exactly
    [https://accounts.spotify.com/authorize?client_id=test&redirect_uri=test&response_type=code];
    the object it returns in is the object it was called on, so nothing was
    sent. *)
Theorem generateAuthorizeUrl_required_only (c : SpotifyJS) :
  clientId c = "test" -> redirectUri c = "test" ->
  generateAuthorizeUrl None c
  = (Normal
       "https://accounts.spotify.com/authorize?client_id=test&redirect_uri=test&response_type=code",
     c).
Proof. intros H1 H2. rewrite generateAuthorizeUrl_eq, H1, H2. reflexivity. Qed.

Lemma generateAuthorizeUrl_required_only_witness :
  generateAuthorizeUrl None (test_client None None (Reject network_error))
  = (Normal
       "https://accounts.spotify.com/authorize?client_id=test&redirect_uri=test&response_type=code",
     test_client None None (Reject network_error)).
Proof. apply generateAuthorizeUrl_required_only; reflexivity. Defined.

(** C7, as stated, fails on the count: with [state], [scope] and
    [show_dialog] all given, the URL carries six parameters, not five. *)
Lemma generateAuthorizeUrl_all_options_six :
  exists u,
    fst (generateAuthorizeUrl (Some all_options)
           (test_client None None (Reject network_error))) = Normal u
    /\ u = "https://accounts.spotify.com/authorize?client_id=test&redirect_uri=test&response_type=code&scope=sc&show_dialog=true&state=s"
    /\ length (query_keys u) <> 5.
Proof. eexists. split; [reflexivity|]. split; [reflexivity|]. discriminate. Qed.

(** C7, amended.  For every client and every combination of the options,
    the query keys of the URL [generateAuthorizeUrl] returns are in strictly
    increasing code-unit (alphabetical) order; with [state] and [scope]
    non-empty and [show_dialog] true they are exactly the six keys
    [client_id], [redirect_uri], [response_type], [scope], [show_dialog],
    [state], in this order. *)
Theorem generateAuthorizeUrl_keys_sorted (c : SpotifyJS) (o : option AuthorizeOptions) :
  exists u,
    generateAuthorizeUrl o c = (Normal u, c)
    /\ StronglySorted name_lt (query_keys u)
    /\ (forall s sc,
          o = Some {| state := Some s; opt_scope := Some sc; show_dialog := Some true |} ->
          s <> "" -> sc <> "" ->
          query_keys u
          = ["client_id"; "redirect_uri"; "response_type"; "scope"; "show_dialog"; "state"]).
Proof.
  destruct (authorize_query_pairs c o) as (u & Hu & Hp).
  exists u. split; [exact Hu|]. unfold query_keys. rewrite Hp. clear.
  generalize (clientId c) (redirectUri c). intros cid ru.
  destruct o as [[[[|a s]|] [[|b sc]|] [[]|]]|]; sorted_parameters;
    (split; [repeat constructor | intros ? ? [= ? ?] ? ?; subst; congruence]).
Qed.

Lemma generateAuthorizeUrl_keys_sorted_witness :
  exists u,
    generateAuthorizeUrl (Some all_options) (test_client None None (Reject network_error))
    = (Normal u, test_client None None (Reject network_error))
    /\ StronglySorted name_lt (query_keys u)
    /\ query_keys u
       = ["client_id"; "redirect_uri"; "response_type"; "scope"; "show_dialog"; "state"].
Proof.
  destruct (generateAuthorizeUrl_keys_sorted
              (test_client None None (Reject network_error)) (Some all_options))
    as (u & H1 & H2 & H3).
  exists u. split; [exact H1|]. split; [exact H2|].
  apply (H3 "s" "sc"); [reflexivity | discriminate | discriminate].
Defined.

#[local] Set Warnings "-clear-no-such-hyp".

(** C10.  An optional parameter is in the URL only when its option is
    truthy: [state] and [scope] exactly when given and non-empty,
    [show_dialog] exactly when given as [true] -- so with [show_dialog:
    false] there is no such parameter, and where there is one its value is
    ["true"]. *)
Theorem generateAuthorizeUrl_truthy_only (c : SpotifyJS) (o : option AuthorizeOptions) :
  exists u,
    generateAuthorizeUrl o c = (Normal u, c)
    /\ (In "state" (query_keys u) <-> exists s, o ≫= state = Some s /\ s <> "")
    /\ (In "scope" (query_keys u) <-> exists s, o ≫= opt_scope = Some s /\ s <> "")
    /\ (In "show_dialog" (query_keys u) <-> o ≫= show_dialog = Some true)
    /\ (forall v, In ("show_dialog", v) (query_pairs u) -> v = "true").
Proof.
  destruct (authorize_query_pairs c o) as (u & Hu & Hp).
  exists u. split; [exact Hu|]. unfold query_keys. rewrite Hp. clear.
  generalize (clientId c) (redirectUri c). intros cid ru.
  destruct o as [[[[|a s]|] [[|b sc]|] [[]|]]|]; sorted_parameters; cbn; naive_solver.
Qed.

Lemma generateAuthorizeUrl_truthy_only_witness :
  exists u,
    generateAuthorizeUrl
      (Some {| state := Some ""; opt_scope := Some "sc"; show_dialog := Some false |})
      (test_client None None (Reject network_error))
    = (Normal u, test_client None None (Reject network_error))
    /\ ~ In "state" (query_keys u)
    /\ In "scope" (query_keys u)
    /\ ~ In "show_dialog" (query_keys u).
Proof.
  destruct (generateAuthorizeUrl_truthy_only
              (test_client None None (Reject network_error))
              (Some {| state := Some ""; opt_scope := Some "sc"; show_dialog := Some false |}))
    as (u & H1 & H2 & H3 & H4 & _).
  exists u. split; [exact H1|].
  split; [intros [s [[= <-] Hs]]%H2; congruence|].
  split; [apply H3; exists "sc"; split; [reflexivity | discriminate]|].
  intros [=]%H4.
Defined.

End AuthorizeUrl.

(** ** The dispatcher *)

Create HintDb js discriminated.
#[global] Hint Unfold mbind M_bind bind mret M_ret ret throw try_catch this eval
  async await call axios_call Axios.request : js.

Section Dispatcher.

Lemma _makeApiRequest_eq (config : RequestConfig) (c : SpotifyJS) :
  _makeApiRequest config c
  = (Fulfilled (dispatched (transport_reply c config)), after_request config c).
Proof.
  unfold _makeApiRequest, transport_reply, dispatched. autounfold with js.
  cbn. destruct (adapter _ _ _) as [response|e]; cbn; [|reflexivity].
  destruct (get_prop response "data"); reflexivity.
Qed.

Lemma _makeApiRequest_sent (config : RequestConfig) (c : SpotifyJS) :
  sent (_axiosInstance (snd (_makeApiRequest config c)))
  = (sent (_axiosInstance c) ++ [outgoing (_axiosInstance c) config])%list.
Proof. now rewrite _makeApiRequest_eq. Qed.

(** The dispatcher never rejects. *)
Lemma _makeApiRequest_fulfils (config : RequestConfig) (c : SpotifyJS) :
  exists v, fst (_makeApiRequest config c) = Fulfilled v.
Proof. rewrite _makeApiRequest_eq. eauto. Qed.

(** Every endpoint method is one call of the dispatcher, with no header
    of its own. *)
Lemma endpoint_dispatches (m : EndpointCall) :
  exists config, endpoint m = _makeApiRequest config /\ headers config = ∅.
Proof. destruct m; eexists; split; reflexivity. Qed.

Lemma failed_reply (c c' : SpotifyJS) (config : RequestConfig) (e : value) :
  transport_failed c c' e ->
  sent (_axiosInstance c')
  = (sent (_axiosInstance c) ++ [outgoing (_axiosInstance c) config])%list ->
  transport_reply c config = Reject e.
Proof.
  intros (r & Hr & He) Hs. rewrite Hs in Hr.
  apply app_inj_tail in Hr as [_ <-]. exact He.
Qed.

Lemma not_failed (c c' : SpotifyJS) (e : value) :
  nothing_sent c c' -> ~ transport_failed c c' e.
Proof.
  unfold nothing_sent. intros Hs (r & Hr & _). rewrite Hs in Hr.
  apply (f_equal (@length _)) in Hr. rewrite length_app in Hr. simpl in Hr. lia.
Qed.

End Dispatcher.

(** ** The token operations, case by case *)

Section TokenOperations.

Variable atob : string -> completion string.

Lemma requestAccessToken_eq (code : string) (c : SpotifyJS) :
  requestAccessToken atob code c
  = if negb (truthy (of_string (clientSecret c)))
    then (Rejected (Error "Client secret must be set to request access token."), c)
    else
      match atob (basic_credentials c) with
      | Throw e => (Fulfilled e, c)
      | Normal credentials =>
          let config := token_config credentials (authorization_code_body code c) in
          let response := dispatched (transport_reply c config) in
          let c1 := after_request config c in
          match get_prop response "access_token" with
          | Throw e => (Fulfilled e, c1)
          | Normal access_token =>
              match get_prop response "refresh_token" with
              | Throw e => (Fulfilled e, snd (setAccessToken access_token c1))
              | Normal refresh_token =>
                  (Fulfilled response,
                   snd (setRefreshToken refresh_token
                          (snd (setAccessToken access_token c1))))
              end
          end
      end.
Proof.
  unfold requestAccessToken. autounfold with js. cbn.
  destruct (negb _); [reflexivity|].
  destruct (atob _) as [credentials|e]; cbn; [|reflexivity].
  fold (authorization_code_body code c).
  fold (token_config credentials (authorization_code_body code c)).
  rewrite _makeApiRequest_eq. cbn.
  destruct (get_prop _ "access_token"); cbn; [|reflexivity].
  destruct (get_prop _ "refresh_token"); reflexivity.
Qed.

Lemma refreshAccessToken_eq (c : SpotifyJS) :
  refreshAccessToken atob c
  = if negb (truthy (of_string (clientSecret c)))
    then (Throw (Error "Client secret must be set to refresh token"), c)
    else if negb (truthy (refreshToken c))
    then (Throw (Error "Refresh token is not set"), c)
    else
      match atob (basic_credentials c) with
      | Throw e => (Throw e, c)
      | Normal credentials =>
          let config := token_config credentials (refresh_token_body c) in
          (Normal (Fulfilled (dispatched (transport_reply c config))),
           after_request config c)
      end.
Proof.
  unfold refreshAccessToken. autounfold with js. cbn.
  destruct (negb _); [reflexivity|].
  destruct (negb _); [reflexivity|].
  destruct (atob _) as [credentials|e]; cbn; [|reflexivity].
  fold (refresh_token_body c).
  fold (token_config credentials (refresh_token_body c)).
  rewrite _makeApiRequest_eq. reflexivity.
Qed.

End TokenOperations.

(** ** The bearer header *)

Section Bearer.

Lemma setAccessToken_in_sync (token : value) (c : SpotifyJS) :
  bearer_in_sync (snd (setAccessToken token c)).
Proof. unfold bearer_in_sync. cbn. apply lookup_insert_eq. Qed.

(** A freshly constructed client sends its access token. *)
Lemma new_SpotifyJS_in_sync (axios_create : AxiosInstance) (config : ClientConfig.t) :
  bearer_in_sync (new_SpotifyJS axios_create config).
Proof. apply setAccessToken_in_sync. Qed.

Lemma setRefreshToken_in_sync (token : value) (c : SpotifyJS) :
  bearer_in_sync c -> bearer_in_sync (snd (setRefreshToken token c)).
Proof. intros H. exact H. Qed.

(** An endpoint call sends one request, under the default Authorization
    header, and leaves tokens and defaults alone. *)
Lemma endpoint_sends (m : EndpointCall) (c : SpotifyJS) :
  exists r,
    sent (_axiosInstance (snd (endpoint m c))) = (sent (_axiosInstance c) ++ [r])%list
    /\ authorization r = default_headers (_axiosInstance c) !! "Authorization"
    /\ default_headers (_axiosInstance (snd (endpoint m c)))
       = default_headers (_axiosInstance c)
    /\ accessToken (snd (endpoint m c)) = accessToken c
    /\ refreshToken (snd (endpoint m c)) = refreshToken c.
Proof.
  destruct (endpoint_dispatches m) as (config & -> & Hh).
  rewrite _makeApiRequest_eq. eexists. split; [reflexivity|].
  split; [|repeat split].
  unfold authorization, outgoing. cbn. rewrite Hh. now rewrite (left_id_L ∅ (∪)).
Qed.

(** So do any number of endpoint calls in a row. *)
Lemma endpoints_send (ms : list EndpointCall) (c : SpotifyJS) :
  exists rs,
    sent (_axiosInstance (endpoints ms c)) = (sent (_axiosInstance c) ++ rs)%list
    /\ length rs = length ms
    /\ Forall (fun r => authorization r
                        = default_headers (_axiosInstance c) !! "Authorization") rs
    /\ accessToken (endpoints ms c) = accessToken c
    /\ refreshToken (endpoints ms c) = refreshToken c.
Proof.
  revert c. induction ms as [|m ms IH]; intros c; simpl.
  - exists []. rewrite app_nil_r. repeat split. constructor.
  - destruct (endpoint_sends m c) as (r & Hs & Ha & Hd & Hat & Hrt).
    destruct (IH (snd (endpoint m c))) as (rs & Hs' & Hl & Hf & Hat' & Hrt').
    exists (r :: rs). rewrite Hs', Hs, <- app_assoc. split; [reflexivity|].
    split; [simpl; congruence|].
    split; [|split; congruence].
    constructor; [exact Ha|]. now rewrite Hd in Hf.
Qed.

End Bearer.

(** ** Token exchange *)

Section Exchange.

Variable atob : string -> completion string.

(** [refreshAccessToken] writes no field, whatever the transport says. *)
Lemma refreshAccessToken_stores_nothing (c : SpotifyJS) :
  accessToken (snd (refreshAccessToken atob c)) = accessToken c
  /\ refreshToken (snd (refreshAccessToken atob c)) = refreshToken c
  /\ default_headers (_axiosInstance (snd (refreshAccessToken atob c)))
     = default_headers (_axiosInstance c).
Proof.
  rewrite refreshAccessToken_eq.
  destruct (negb _); [repeat split|].
  destruct (negb _); [repeat split|].
  destruct (atob _); repeat split.
Qed.

(** What [requestAccessToken] does by construction once the credentials
    string is there and the transport resolves with a response whose [data]
    is an object: both tokens are stored from [data], [data] is returned,
    and the default header follows the new access token. *)
Lemma requestAccessToken_stores_reply (code : string) (c : SpotifyJS)
    (credentials : string) (response : value) (fields : list (string * value)) :
  truthy (of_string (clientSecret c)) = true ->
  atob (basic_credentials c) = Normal credentials ->
  transport_reply c (token_config credentials (authorization_code_body code c))
  = Resolve response ->
  get_prop response "data" = Normal (VObj fields) ->
  let c' := snd (requestAccessToken atob code c) in
  fst (requestAccessToken atob code c) = Fulfilled (VObj fields)
  /\ fst (getAccessToken c') = Normal (default VUndefined (lookup_field "access_token" fields))
  /\ fst (getRefreshToken c') = Normal (default VUndefined (lookup_field "refresh_token" fields))
  /\ bearer_in_sync c'
  /\ forall ms, exists rs,
       sent (_axiosInstance (endpoints ms c')) = (sent (_axiosInstance c') ++ rs)%list
       /\ length rs = length ms
       /\ Forall (fun r => authorization r
                           = Some ("Bearer " ++ to_string
                                     (default VUndefined (lookup_field "access_token" fields))))
            rs.
Proof.
  intros Hs Ha Hr Hd. rewrite requestAccessToken_eq, Hs, Ha. cbn zeta.
  rewrite Hr. cbn [negb dispatched get_prop]. rewrite Hd. cbn [get_prop fst snd].
  repeat split.
  - apply setAccessToken_in_sync.
  - intros ms.
    match goal with |- context [endpoints ms ?c'] =>
      destruct (endpoints_send ms c') as (rs & H1 & H2 & H3 & _) end.
    exists rs. repeat split; [exact H1 | exact H2 |].
    eapply Forall_impl; [exact H3|]. intros r ->. cbn. apply lookup_insert_eq.
Qed.

End Exchange.

(** ** Transport failures *)

Lemma get_prop_throws (v : value) (k : string) (e : value) :
  get_prop v k = Throw e -> is_nullish v = true.
Proof. destruct v; simpl; intros H; (reflexivity || discriminate). Qed.

Lemma get_prop_returns (v : value) (k : string) (x : value) :
  get_prop v k = Normal x -> is_nullish v = false.
Proof. destruct v; simpl; intros H; (reflexivity || discriminate). Qed.

(** C3.  Whatever the config, the endpoint method or the token operation,
    and whatever [atob] does: when the call's request went out and the
    transport failed it with [e], the call neither throws nor rejects; its
    promise is fulfilled, and with [e] itself ([requestAccessToken] needs
    [e] to be an object or any value other than [undefined] and [null],
    since it reads a property off it). *)
Theorem transport_errors_are_returned (atob : string -> completion string)
    (op : Operation) (c : SpotifyJS) (e : value) :
  transport_failed c (snd (run atob op c)) e ->
  exists v, fst (run atob op c) = Normal (Fulfilled v) /\ (error_object op e -> v = e).
Proof.
  intros Hf. destruct op as [config|m|code|]; cbn [run] in *.
  - unfold call in *. rewrite _makeApiRequest_eq in *. cbn [fst snd] in *.
    rewrite (failed_reply c _ config e Hf eq_refl). eauto.
  - destruct (endpoint_dispatches m) as (config & Hm & _).
    unfold call in *. rewrite Hm, _makeApiRequest_eq in *. cbn [fst snd] in *.
    rewrite (failed_reply c _ config e Hf eq_refl). eauto.
  - unfold call in *. rewrite requestAccessToken_eq in *.
    destruct (negb _); [now apply not_failed in Hf|].
    destruct (atob _) as [credentials|e0]; [|now apply not_failed in Hf].
    cbn zeta in *.
    set (config := token_config credentials (authorization_code_body code c)) in *.
    destruct (get_prop (dispatched (transport_reply c config)) "access_token")
      as [a|e1] eqn:Ea;
      [destruct (get_prop (dispatched (transport_reply c config)) "refresh_token")
         as [r|e2] eqn:Er|];
      cbn [fst snd] in *;
      pose proof (failed_reply c _ config e Hf eq_refl) as Hreply;
      rewrite Hreply in *; cbn [dispatched] in *.
    + eauto.
    + apply get_prop_throws in Er. apply get_prop_returns in Ea. congruence.
    + apply get_prop_throws in Ea. eexists. split; [reflexivity|].
      cbn. congruence.
  - rewrite refreshAccessToken_eq in *.
    destruct (negb _); [now apply not_failed in Hf|].
    destruct (negb _); [now apply not_failed in Hf|].
    destruct (atob _) as [credentials|e0]; [|now apply not_failed in Hf].
    cbn zeta in *. cbn [fst snd] in *.
    rewrite (failed_reply c _ _ e Hf eq_refl). eauto.
Qed.

Lemma transport_errors_are_returned_witness :
  exists v,
    fst (run Base64.atob (Endpoint (Search "the killers" "artist" None None None))
           (test_client None None (Reject network_error)))
    = Normal (Fulfilled v)
    /\ v = network_error.
Proof.
  destruct (transport_errors_are_returned Base64.atob
              (Endpoint (Search "the killers" "artist" None None None))
              (test_client None None (Reject network_error)) network_error)
    as (v & Hv & He).
  - eexists. split; reflexivity.
  - exists v. split; [exact Hv | exact (He I)].
Defined.

(** ** Credential checks *)

(** C4, as stated, fails for [requestAccessToken]: an async function does
    not throw to its caller; without a client secret the call returns a
    promise that is rejected with the error. *)
Lemma requestAccessToken_unconfigured_rejects :
  run Base64.atob (RequestAccessToken "code")
    (test_client None None (Resolve token_response))
  = (Normal (Rejected (Error "Client secret must be set to request access token.")),
     test_client None None (Resolve token_response))
  /\ forall e,
       fst (run Base64.atob (RequestAccessToken "code")
              (test_client None None (Resolve token_response)))
       <> Throw e.
Proof. split; [reflexivity|]. intros e. discriminate. Qed.

(** C4, amended.  When the client secret is missing (or empty),
    [requestAccessToken] returns a promise rejected with the error and
    [refreshAccessToken] throws; when the refresh token is missing,
    [refreshAccessToken] throws.  In each case the object is exactly as it
    was: no request was sent and no field was written. *)
Theorem credential_checks_precede_network (atob : string -> completion string)
    (c : SpotifyJS) (code : string) :
  truthy (of_string (clientSecret c)) = false \/ truthy (refreshToken c) = false ->
  (truthy (of_string (clientSecret c)) = false ->
   run atob (RequestAccessToken code) c
   = (Normal (Rejected (Error "Client secret must be set to request access token.")), c))
  /\ exists message,
       run atob RefreshAccessToken c = (Throw (Error message), c)
       /\ (message = "Client secret must be set to refresh token"
           \/ message = "Refresh token is not set").
Proof.
  intros H. split.
  - intros Hs. cbn [run]. unfold call. rewrite requestAccessToken_eq, Hs. reflexivity.
  - cbn [run]. rewrite refreshAccessToken_eq.
    destruct (truthy (of_string (clientSecret c))); cbn [negb]; [|eauto].
    destruct H as [H|H]; [discriminate|]. rewrite H. cbn [negb]. eauto.
Qed.

Lemma credential_checks_precede_network_witness :
  run Base64.atob (RequestAccessToken "code")
    (test_client None None (Resolve token_response))
  = (Normal (Rejected (Error "Client secret must be set to request access token.")),
     test_client None None (Resolve token_response))
  /\ exists message,
       run Base64.atob RefreshAccessToken (test_client None None (Resolve token_response))
       = (Throw (Error message), test_client None None (Resolve token_response))
       /\ (message = "Client secret must be set to refresh token"
           \/ message = "Refresh token is not set").
Proof.
  destruct (credential_checks_precede_network Base64.atob
              (test_client None None (Resolve token_response)) "code")
    as [H1 H2].
  - left. reflexivity.
  - split; [apply H1; reflexivity | exact H2].
Defined.

(** ** The Basic credentials *)

(** Where [atob] returns, what goes out is [Basic] followed by what it
    returned, posted to the token endpoint. *)
Lemma token_request_header (ax : AxiosInstance) (credentials : string) (body : payload) :
  let r := outgoing ax (token_config credentials body) in
  req_method r = "POST"
  /\ req_url r = "https://accounts.spotify.com/api/token"
  /\ authorization r = Some ("Basic " ++ credentials)
  /\ req_headers r !! "Content-Type" = Some "application/x-www-form-urlencoded".
Proof.
  repeat split; unfold authorization; cbn.
  - apply lookup_union_Some_l, lookup_insert_eq.
  - apply lookup_union_Some_l. rewrite lookup_insert_ne by discriminate.
    apply lookup_insert_eq.
Qed.

Lemma atob_basic_credentials (c : SpotifyJS) :
  Base64.atob (basic_credentials c) = Throw Base64.InvalidCharacterError.
Proof. apply atob_credentials. Qed.

(** C2 fails on the code.  The header is built with [atob], the base64
    DEcoder, and the string [clientId:clientSecret] is never valid base64:
    with a client secret set, [requestAccessToken] resolves with the
    InvalidCharacterError and [refreshAccessToken] throws it, and neither
    sends a request -- there is no POST to carry an Authorization header. *)
Theorem token_requests_never_leave (c : SpotifyJS) (code : string) :
  truthy (of_string (clientSecret c)) = true ->
  requestAccessToken Base64.atob code c = (Fulfilled Base64.InvalidCharacterError, c)
  /\ (truthy (refreshToken c) = true ->
      refreshAccessToken Base64.atob c = (Throw Base64.InvalidCharacterError, c)).
Proof.
  intros Hs. split.
  - now rewrite requestAccessToken_eq, Hs, atob_basic_credentials.
  - intros Hr. now rewrite refreshAccessToken_eq, Hs, Hr, atob_basic_credentials.
Qed.

Lemma token_requests_never_leave_witness :
  requestAccessToken Base64.atob "code"
    (test_client (Some "secret") (Some "old-refresh") (Resolve token_response))
  = (Fulfilled Base64.InvalidCharacterError,
     test_client (Some "secret") (Some "old-refresh") (Resolve token_response))
  /\ refreshAccessToken Base64.atob
       (test_client (Some "secret") (Some "old-refresh") (Resolve token_response))
     = (Throw Base64.InvalidCharacterError,
        test_client (Some "secret") (Some "old-refresh") (Resolve token_response)).
Proof.
  destruct (token_requests_never_leave
              (test_client (Some "secret") (Some "old-refresh") (Resolve token_response))
              "code" eq_refl) as [H1 H2].
  split; [exact H1 | exact (H2 eq_refl)].
Defined.

(** ** Storing the reply *)

(** C1 fails on the code.  A client with secret and refresh token, and a
    transport that answers every request with new tokens: as written,
    [refreshAccessToken] throws at [atob] before anything is sent; and even
    with the encoder [btoa] in that place the reply is handed back to the
    caller and nothing is stored -- the access token, the refresh token and
    the bearer header are the old ones. *)
Theorem refreshAccessToken_keeps_old_tokens :
  let c := test_client (Some "secret") (Some "old-refresh") (Resolve token_response) in
  refreshAccessToken Base64.atob c = (Throw Base64.InvalidCharacterError, c)
  /\ accessToken c = VStr "old-access"
  /\ (let c' := snd (refreshAccessToken Base64.btoa c) in
      (exists reply,
         fst (refreshAccessToken Base64.btoa c) = Normal (Fulfilled reply)
         /\ get_prop reply "access_token" = Normal (VStr "new-access"))
      /\ length (sent (_axiosInstance c')) = 1
      /\ accessToken c' = VStr "old-access"
      /\ refreshToken c' = VStr "old-refresh"
      /\ default_headers (_axiosInstance c') !! "Authorization" = Some "Bearer old-access").
Proof.
  cbn zeta. split; [reflexivity|]. split; [reflexivity|].
  split; [eexists; split; reflexivity|]. repeat split.
Qed.

(** On the platform's own [atob] the exchange stops before the transport:
    with a client secret and a transport that would answer with new tokens,
    [requestAccessToken] resolves with the InvalidCharacterError, nothing is
    sent and the stored tokens are the old ones. *)
Example requestAccessToken_keeps_old_tokens :
  let c := test_client (Some "secret") None (Resolve token_response) in
  let c' := snd (requestAccessToken Base64.atob "code" c) in
  fst (requestAccessToken Base64.atob "code" c) = Fulfilled Base64.InvalidCharacterError
  /\ sent (_axiosInstance c') = []
  /\ fst (getAccessToken c') = Normal (VStr "old-access")
  /\ fst (getRefreshToken c') = Normal VUndefined
  /\ exists r,
       sent (_axiosInstance (snd (getCurrentUserProfile c'))) = [r]
       /\ authorization r = Some "Bearer old-access".
Proof.
  cbn zeta. repeat split. eexists. split; reflexivity.
Qed.

(** With an [atob] that returns, the same client and transport exchange
    the code for the new tokens. *)
Example requestAccessToken_with_encoder :
  let c := test_client (Some "secret") None (Resolve token_response) in
  let c' := snd (requestAccessToken Base64.btoa "code" c) in
  fst (getAccessToken c') = Normal (VStr "new-access")
  /\ fst (getRefreshToken c') = Normal (VStr "new-refresh")
  /\ (exists r, sent (_axiosInstance c') = [r]
                /\ authorization r = Some "Basic dGVzdDpzZWNyZXQ=")
  /\ exists r,
       last (sent (_axiosInstance (snd (getCurrentUserProfile c')))) = Some r
       /\ authorization r = Some "Bearer new-access".
Proof.
  cbn zeta. repeat split; eexists; split; reflexivity.
Qed.

Lemma succeeded_reply (c c' : SpotifyJS) (config : RequestConfig) (response : value) :
  transport_succeeded c c' response ->
  sent (_axiosInstance c')
  = (sent (_axiosInstance c) ++ [outgoing (_axiosInstance c) config])%list ->
  transport_reply c config = Resolve response.
Proof.
  intros (r & Hr & He) Hs. rewrite Hs in Hr.
  apply app_inj_tail in Hr as [_ <-]. exact He.
Qed.

Lemma not_succeeded (c c' : SpotifyJS) (response : value) :
  nothing_sent c c' -> ~ transport_succeeded c c' response.
Proof.
  unfold nothing_sent. intros Hs (r & Hr & _). rewrite Hs in Hr.
  apply (f_equal (@length _)) in Hr. rewrite length_app in Hr. simpl in Hr. lia.
Qed.

(** A request of [requestAccessToken] went out only if the credentials
    string was there, and it is the token request. *)
Lemma requestAccessToken_request (atob : string -> completion string)
    (code : string) (c : SpotifyJS) (r : Request) :
  sent (_axiosInstance (snd (requestAccessToken atob code c)))
  = (sent (_axiosInstance c) ++ [r])%list ->
  exists credentials,
    truthy (of_string (clientSecret c)) = true
    /\ atob (basic_credentials c) = Normal credentials
    /\ r = outgoing (_axiosInstance c)
             (token_config credentials (authorization_code_body code c)).
Proof.
  intros Hs. rewrite requestAccessToken_eq in Hs.
  assert (forall l : list Request, l <> (l ++ [r])%list) as Hne.
  { intros l E. apply (f_equal (@length _)) in E. rewrite length_app in E.
    simpl in E. lia. }
  destruct (truthy (of_string (clientSecret c))); cbn [negb] in Hs;
    [|now apply Hne in Hs].
  destruct (atob (basic_credentials c)) as [credentials|e0];
    [|now apply Hne in Hs].
  exists credentials. split; [reflexivity|]. split; [reflexivity|].
  cbn zeta in Hs.
  destruct (get_prop _ "access_token"); [destruct (get_prop _ "refresh_token")|];
    cbn in Hs; now apply app_inj_tail in Hs as [_ <-].
Qed.

(** C5.  For every client with a client secret set and every [atob]: when
    the request of [requestAccessToken] went out and the transport resolved
    it with a response whose [data] is a token object, the call is fulfilled
    with that object, the stored access token and refresh token are the
    object's [access_token] and [refresh_token], [getAccessToken()] and
    [getRefreshToken()] return them, and every endpoint call made afterwards
    goes out under the bearer header of the new access token. *)
Theorem requestAccessToken_stores_tokens (atob : string -> completion string)
    (code : string) (c : SpotifyJS) (response : value)
    (fields : list (string * value)) :
  truthy (of_string (clientSecret c)) = true ->
  transport_succeeded c (snd (requestAccessToken atob code c)) response ->
  get_prop response "data" = Normal (VObj fields) ->
  let c' := snd (requestAccessToken atob code c) in
  fst (requestAccessToken atob code c) = Fulfilled (VObj fields)
  /\ accessToken c' = default VUndefined (lookup_field "access_token" fields)
  /\ refreshToken c' = default VUndefined (lookup_field "refresh_token" fields)
  /\ fst (getAccessToken c')
     = Normal (default VUndefined (lookup_field "access_token" fields))
  /\ fst (getRefreshToken c')
     = Normal (default VUndefined (lookup_field "refresh_token" fields))
  /\ forall ms, exists rs,
       sent (_axiosInstance (endpoints ms c')) = (sent (_axiosInstance c') ++ rs)%list
       /\ length rs = length ms
       /\ Forall (fun r => authorization r
                           = Some ("Bearer " ++ to_string
                                     (default VUndefined
                                        (lookup_field "access_token" fields))))
            rs.
Proof.
  intros Hs Hok Hd. cbn zeta.
  destruct Hok as (r & Hr & Hrep).
  destruct (requestAccessToken_request atob code c r Hr) as (credentials & _ & Ha & ->).
  destruct (requestAccessToken_stores_reply atob code c credentials response fields
              Hs Ha Hrep Hd) as (H1 & H2 & H3 & _ & H5).
  split; [exact H1|].
  split; [now injection H2|]. split; [now injection H3|].
  split; [exact H2|]. split; [exact H3|]. exact H5.
Qed.

Lemma requestAccessToken_stores_tokens_witness :
  let c := test_client (Some "secret") None (Resolve token_response) in
  let c' := snd (requestAccessToken Base64.btoa "code" c) in
  accessToken c' = VStr "new-access"
  /\ refreshToken c' = VStr "new-refresh"
  /\ exists rs,
       sent (_axiosInstance (endpoints [GetCurrentUserProfile] c'))
       = (sent (_axiosInstance c') ++ rs)%list
       /\ length rs = 1
       /\ Forall (fun r => authorization r = Some "Bearer new-access") rs.
Proof.
  cbn zeta.
  destruct (requestAccessToken_stores_tokens Base64.btoa "code"
              (test_client (Some "secret") None (Resolve token_response))
              token_response
              [("access_token", VStr "new-access");
               ("token_type", VStr "Bearer");
               ("expires_in", VNum 3600);
               ("refresh_token", VStr "new-refresh");
               ("scope", VStr "user-read-private")])
    as (_ & H2 & H3 & _ & _ & H6).
  - reflexivity.
  - eexists. split; reflexivity.
  - reflexivity.
  - split; [exact H2|]. split; [exact H3|]. exact (H6 [GetCurrentUserProfile]).
Defined.

(** With a transport that fails every request, the platform's own [atob]
    again stops the exchange before the transport, and the object is left
    as it was. *)
Example requestAccessToken_failing_transport_unchanged :
  let c := test_client (Some "secret") None (Reject network_error) in
  requestAccessToken Base64.atob "code" c = (Fulfilled Base64.InvalidCharacterError, c)
  /\ accessToken (snd (requestAccessToken Base64.atob "code" c)) <> VUndefined
  /\ default_headers (_axiosInstance (snd (requestAccessToken Base64.atob "code" c)))
     !! "Authorization" = Some "Bearer old-access".
Proof. cbn zeta. split; [reflexivity|]. split; [discriminate | reflexivity]. Qed.




(** ** Optional parameters *)

Section OptionalParameters.

Lemma prefix_across (c : ascii) (needle a b : string) :
  absent c needle = true ->
  String.prefix needle (a ++ String c b) = String.prefix needle a.
Proof.
  revert needle. induction a as [|y a IH]; intros [|x needle]; simpl; try reflexivity.
  - intros [Hx _]%andb_prop. destruct (ascii_dec x c) as [->|_]; [|reflexivity].
    now rewrite Ascii.eqb_refl in Hx.
  - intros [_ Hn]%andb_prop. destruct (ascii_dec x y); [now apply IH | reflexivity].
Qed.

(** A text without a slash occurs in [a/b] only inside [a] or inside [b]. *)
Lemma occurs_across (c : ascii) (needle a b : string) :
  absent c needle = true ->
  occurs needle (a ++ String c b) = occurs needle a || occurs needle b.
Proof.
  intros Hc. induction a as [|y a IH].
  - change (occurs needle ("" ++ String c b))
      with (String.prefix needle ("" ++ String c b) || occurs needle b).
    rewrite (prefix_across c needle "" b Hc). cbn [occurs]. now rewrite orb_false_r.
  - change (occurs needle (String y a ++ String c b))
      with (String.prefix needle (String y a ++ String c b)
            || occurs needle (a ++ String c b)).
    rewrite (prefix_across c needle (String y a) b Hc), IH. cbn [occurs].
    now rewrite orb_assoc.
Qed.

Lemma occurs_after (pre a : string) :
  occurs "undefined" pre = false ->
  occurs "undefined" (pre ++ String "/" a) = true -> occurs "undefined" a = true.
Proof. intros Hp. rewrite occurs_across by reflexivity. now rewrite Hp. Qed.

Lemma occurs_between (pre post a : string) :
  occurs "undefined" pre = false -> occurs "undefined" post = false ->
  occurs "undefined" (pre ++ String "/" (a ++ String "/" post)) = true ->
  occurs "undefined" a = true.
Proof.
  intros Hp Hq. rewrite !occurs_across by reflexivity.
  now rewrite Hp, Hq, orb_false_r.
Qed.

Lemma json_defined (v : value) : v <> VUndefined -> json v <> VUndefined.
Proof. destruct v; simpl; congruence. Qed.

Ltac members :=
  repeat match goal with
         | H : False |- _ => destruct H
         | H : _ \/ _ |- _ => destruct H as [H|H]
         | H : In _ [] |- _ => destruct H
         | H : In _ (_ :: _) |- _ => destruct H as [H|H]
         | H : In _ (_ ++ _) |- _ => apply in_app_or in H as [H|H]
         | H : In _ (map _ _) |- _ =>
             let x := fresh "x" in apply in_map_iff in H as (x & H & ?)
         | H : (_, _) = (_, _) |- _ => injection H as ? ?
         | H : _ /\ _ |- _ => destruct H
         end;
  subst.

Ltac arguments :=
  repeat match goal with
         | o : option _ |- _ => destruct o
         | p : PageOptions |- _ => destruct p
         end;
  cbn in *.

Ltac arguments_any :=
  repeat match goal with
         | o : option _ |- _ => destruct o
         | p : PageOptions |- _ => destruct p
         | x : value |- _ => destruct x
         end;
  cbn in *.

Ltac query_pairs_tac :=
  intros k v Hin; arguments; members;
  (split; [discriminate|]);
  rewrite ?in_app_iff, ?in_map_iff; cbn; eauto 12 using in_map.

Ltac omitted_tac :=
  intros k Hin; cbn in Hin;
  repeat (destruct Hin as [Hin|Hin]; [injection Hin as <- Hv|]);
  try contradiction;
  arguments_any; try discriminate;
  rewrite ?map_app, ?in_app_iff, ?map_map, ?in_map_iff; cbn;
  intuition (try discriminate);
  repeat match goal with
         | H : exists _, _ |- _ => destruct H
         | H : _ /\ _ |- _ => destruct H
         end;
  try congruence;
  match goal with H : (_ ++ _)%string = _ |- _ => discriminate H end.

Ltac body_tac :=
  first
    [ left; reflexivity
    | right; arguments_any; eexists; (split; [reflexivity|]);
      intros k v Hin; members;
      (split; [discriminate|]);
      eexists; (split; [cbn; eauto 12|]); (split; [discriminate | reflexivity]) ].

Ltac path_tac :=
  cbn [url path_arguments];
  let H := fresh "Hocc" in
  intros H;
  first
    [ discriminate H
    | eexists; (split; [left; reflexivity|]);
      first [ exact (occurs_between "albums" "tracks" _ eq_refl eq_refl H)
            | exact (occurs_between "artist" "albums" _ eq_refl eq_refl H)
            | exact (occurs_between "artist" "top-tracks" _ eq_refl eq_refl H)
            | exact (occurs_between "playlists" "tracks" _ eq_refl eq_refl H)
            | exact (occurs_after "albums" _ eq_refl H)
            | exact (occurs_after "artist" _ eq_refl H)
            | exact (occurs_after "playlists" _ eq_refl H) ] ].

(** C9.  For every endpoint method and every call of it, in the one request
    that goes out: an optional parameter passed as [undefined] is not among
    the query keys nor among the body fields; every query pair and every
    body field is an argument of the call, with the value it was given, and
    none has the value [undefined]; the body is JSON or absent, never a
    text; and the text [undefined] occurs in the URL only where an argument
    written into the path contains it. *)
Theorem undefined_parameters_are_omitted (m : EndpointCall) (c : SpotifyJS) :
  exists r,
    sent (_axiosInstance (snd (endpoint m c))) = (sent (_axiosInstance c) ++ [r])%list
    /\ (forall k v, In (k, v) (req_query r) -> v <> VUndefined)
    /\ (forall fs k v, req_body r = JsonBody (VObj fs) -> In (k, v) fs -> v <> VUndefined)
    /\ (forall k, In (k, VUndefined) (optional_arguments m) ->
          ~ In k (map fst (req_query r)) /\ ~ In k (body_fields (req_body r)))
    /\ (forall k v, In (k, v) (req_query r) ->
          In (k, v) (flat_map wire_param (required_arguments m ++ optional_arguments m)))
    /\ (req_body r = NoBody
        \/ exists fs,
             req_body r = JsonBody (VObj fs)
             /\ forall k v, In (k, v) fs ->
                  exists v0,
                    In (k, v0) (untyped_arguments m ++ optional_arguments m)
                    /\ v0 <> VUndefined /\ v = json v0)
    /\ (occurs "undefined" (req_url r) = true ->
        exists p, In p (path_arguments m) /\ occurs "undefined" p = true).
Proof.
  assert (exists config,
            endpoint m = _makeApiRequest config
            /\ (forall k v, In (k, v) (flat_map wire_param (params config)) ->
                  v <> VUndefined
                  /\ In (k, v)
                       (flat_map wire_param (required_arguments m ++ optional_arguments m)))
            /\ (forall k, In (k, VUndefined) (optional_arguments m) ->
                  ~ In k (map fst (flat_map wire_param (params config)))
                  /\ ~ In k (body_fields (transformRequest (data config))))
            /\ (transformRequest (data config) = NoBody
                \/ exists fs,
                     transformRequest (data config) = JsonBody (VObj fs)
                     /\ forall k v, In (k, v) fs ->
                          v <> VUndefined
                          /\ exists v0,
                               In (k, v0) (untyped_arguments m ++ optional_arguments m)
                               /\ v0 <> VUndefined /\ v = json v0)
            /\ (occurs "undefined" (url config) = true ->
                exists p, In p (path_arguments m) /\ occurs "undefined" p = true))
    as (config & Hm & Hq & Ho & Hb & Hu).
  { destruct m; eexists; (split; [reflexivity|]);
      (split; [query_pairs_tac | split; [omitted_tac | split; [body_tac | path_tac]]]).
 }
  rewrite Hm, _makeApiRequest_eq. eexists. split; [reflexivity|].
  change (req_query (outgoing (_axiosInstance c) config))
    with (flat_map wire_param (params config)).
  change (req_body (outgoing (_axiosInstance c) config))
    with (transformRequest (data config)).
  change (req_url (outgoing (_axiosInstance c) config)) with (url config).
  split; [intros k v Hin; exact (proj1 (Hq k v Hin))|].
  split.
  { intros fs k v Hfs Hin. destruct Hb as [Hb|(fs' & Hb & Hf)]; [congruence|].
    rewrite Hb in Hfs. injection Hfs as <-. exact (proj1 (Hf k v Hin)). }
  split; [exact Ho|].
  split; [intros k v Hin; exact (proj2 (Hq k v Hin))|].
  split; [|exact Hu].
  destruct Hb as [Hb|(fs & Hb & Hf)]; [now left|].
  right. exists fs. split; [exact Hb|]. intros k v Hin. exact (proj2 (Hf k v Hin)).
Qed.

Lemma undefined_parameters_are_omitted_witness :
  exists r,
    sent (_axiosInstance
            (snd (endpoint (Search "the killers" "artist" None None None)
                    (test_client None None (Resolve token_response)))))
    = [r]
    /\ ~ In "market" (map fst (req_query r))
    /\ ~ In "limit" (map fst (req_query r))
    /\ ~ In "offset" (map fst (req_query r)).
Proof.
  destruct (undefined_parameters_are_omitted
              (Search "the killers" "artist" None None None)
              (test_client None None (Resolve token_response)))
    as (r & Hs & _ & _ & Ho & _).
  exists r. split; [exact Hs|].
  split; [|split]; apply Ho; cbn; tauto.
Defined.

(** [search] with the two required arguments: a GET to [search] with the
    query [q], [type] and nothing else, under the bearer header, resolving
    with the [data] of the response. *)
Example search_request :
  let c := test_client None None
             (Resolve (VObj [("data", VObj [("artists", VStr "The Killers")])])) in
  fst (search "the killers" "artist" None None None c)
  = Fulfilled (VObj [("artists", VStr "The Killers")])
  /\ exists r,
       sent (_axiosInstance (snd (search "the killers" "artist" None None None c))) = [r]
       /\ req_method r = "GET"
       /\ req_url r = "search"
       /\ req_baseURL r = Some "https://api.spotify.com/v1"
       /\ req_query r = [("q", VStr "the killers"); ("type", VStr "artist")]
       /\ req_body r = NoBody
       /\ authorization r = Some "Bearer old-access".
Proof. cbn zeta. split; [reflexivity|]. eexists. repeat split. Qed.

(** [startPlayback] with only a context: the other body fields are gone. *)
Example startPlayback_request :
  exists r,
    sent (_axiosInstance
            (snd (startPlayback None (Some "spotify:album:1") None VUndefined None
                    (test_client None None (Resolve token_response)))))
    = [r]
    /\ req_query r = []
    /\ req_body r = JsonBody (VObj [("context_uri", VStr "spotify:album:1")]).
Proof. eexists. repeat split. Qed.

End OptionalParameters.

(** * Further properties *)

(** ** The authorize URL, read back *)

Section AuthorizeUrlValues.
Import URLSearchParams.

Lemma percent_decode_encode_char (c : ascii) (rest : string) :
  percent_decode (encode_char c ++ rest) = (utf8 c ++ percent_decode rest)%list.
Proof. destruct c as [[] [] [] [] [] [] [] []]; reflexivity. Qed.

Lemma percent_decode_urlencode (s : string) :
  percent_decode (urlencode s) = flat_map utf8 (list_ascii_of_string s).
Proof.
  induction s as [|c s IH]; [reflexivity|].
  cbn [urlencode list_ascii_of_string flat_map].
  now rewrite percent_decode_encode_char, IH.
Qed.

Lemma utf8_decode_utf8 (c : ascii) (bs : list N) :
  utf8_decode (utf8 c ++ bs) = option_map (String c) (utf8_decode bs).
Proof. destruct c as [[] [] [] [] [] [] [] []]; reflexivity. Qed.

(** Decoding an encoded string gives the string back. *)
Lemma urldecode_urlencode (s : string) : urldecode (urlencode s) = Some s.
Proof.
  unfold urldecode. rewrite percent_decode_urlencode.
  induction s as [|c s IH]; [reflexivity|].
  cbn [list_ascii_of_string flat_map]. now rewrite utf8_decode_utf8, IH.
Qed.

Lemma authorize_decoded_query (c : SpotifyJS) (o : option AuthorizeOptions) :
  exists u,
    generateAuthorizeUrl o c = (Normal u, c)
    /\ decoded_query u
       = map (fun kv => (Some (fst kv), Some (snd kv)))
           (sort ([("client_id", clientId c);
                   ("response_type", "code");
                   ("redirect_uri", redirectUri c)]
                  ++ appended_parameters o)%list).
Proof.
  destruct (authorize_query_pairs c o) as (u & Hu & Hp).
  exists u. split; [exact Hu|]. unfold decoded_query. rewrite Hp, map_map.
  apply map_ext. intros kv. cbn [fst snd]. now rewrite !urldecode_urlencode.
Qed.

(** X1.  For a client id, a redirect URI, a [state] and a [scope] made of
    code units below 256 (the strings of this model; beyond them, a lone
    surrogate does not survive [URLSearchParams]), whatever these are --
    spaces, [&], [=], [?], [%], non-ASCII -- they come back unchanged when
    the query of the URL [generateAuthorizeUrl] returns is parsed and
    decoded by the application/x-www-form-urlencoded rules: [client_id],
    [redirect_uri] and [response_type=code] are always among the decoded
    pairs, [state] and [scope] whenever they were given non-empty, and every
    decoded pair is one of these or [show_dialog=true]. *)
Theorem generateAuthorizeUrl_values_round_trip (c : SpotifyJS)
    (o : option AuthorizeOptions) :
  exists u,
    generateAuthorizeUrl o c = (Normal u, c)
    /\ In (Some "client_id", Some (clientId c)) (decoded_query u)
    /\ In (Some "redirect_uri", Some (redirectUri c)) (decoded_query u)
    /\ In (Some "response_type", Some "code") (decoded_query u)
    /\ (forall s, o ≫= state = Some s -> s <> "" ->
          In (Some "state", Some s) (decoded_query u))
    /\ (forall s, o ≫= opt_scope = Some s -> s <> "" ->
          In (Some "scope", Some s) (decoded_query u))
    /\ (forall kv, In kv (decoded_query u) ->
          kv = (Some "client_id", Some (clientId c))
          \/ kv = (Some "redirect_uri", Some (redirectUri c))
          \/ kv = (Some "response_type", Some "code")
          \/ kv = (Some "state", o ≫= state)
          \/ kv = (Some "scope", o ≫= opt_scope)
          \/ kv = (Some "show_dialog", Some "true")).
Proof.
  destruct (authorize_decoded_query c o) as (u & Hu & Hd).
  exists u. split; [exact Hu|]. rewrite Hd.
  set (p := ([("client_id", clientId c); ("response_type", "code");
              ("redirect_uri", redirectUri c)] ++ appended_parameters o)%list).
  assert (forall k v, In (Some k, Some v) (map (fun kv => (Some (fst kv), Some (snd kv))) (sort p))
                      <-> In (k, v) p) as Hin.
  { intros k v. destruct (sort_sorted p) as [_ Hperm]. split.
    - intros ((k' & v') & [= -> ->] & H)%in_map_iff.
      apply list_elem_of_In. rewrite <- Hperm. now apply list_elem_of_In.
    - intros H. apply in_map_iff. exists (k, v). split; [reflexivity|].
      apply list_elem_of_In. rewrite Hperm. now apply list_elem_of_In. }
  repeat split.
  - apply Hin. subst p. cbn. tauto.
  - apply Hin. subst p. cbn. tauto.
  - apply Hin. subst p. cbn. tauto.
  - intros s Hs Hne. apply Hin. subst p. unfold appended_parameters. rewrite Hs.
    destruct s; [congruence|]. cbn. tauto.
  - intros s Hs Hne. apply Hin. subst p. unfold appended_parameters. rewrite Hs.
    destruct s; [congruence|]. apply in_or_app. right. apply in_or_app. right.
    apply in_or_app. left. now left.
  - intros [k v] ((k' & v') & [= <- <-] & H)%in_map_iff.
    assert (In (k', v') p) as Hp.
    { apply (Hin k' v'). apply in_map_iff. exists (k', v'). now split. }
    clear H Hin Hd. subst p. unfold appended_parameters in Hp.
    destruct o as [[[[|a s]|] [[|b sc]|] [[]|]]|]; cbn in Hp |- *;
      intuition (match goal with H : (_, _) = (_, _) |- _ => injection H as <- <- end;
                 tauto).
Qed.

Lemma generateAuthorizeUrl_values_round_trip_witness :
  exists u,
    generateAuthorizeUrl
      (Some {| state := Some "a b&c=d?"; opt_scope := None; show_dialog := None |})
      (test_client None None (Reject network_error))
    = (Normal u, test_client None None (Reject network_error))
    /\ In (Some "state", Some "a b&c=d?") (decoded_query u).
Proof.
  destruct (generateAuthorizeUrl_values_round_trip
              (test_client None None (Reject network_error))
              (Some {| state := Some "a b&c=d?"; opt_scope := None; show_dialog := None |}))
    as (u & H1 & _ & _ & _ & H2 & _).
  exists u. split; [exact H1|]. apply H2; [reflexivity | discriminate].
Defined.

(** X2.  The keys of the URL are, for every input, the three fixed ones
    followed by [scope], [show_dialog] and [state] for the options that are
    truthy: no value, whatever it contains, adds, removes or renames a
    key. *)
Theorem generateAuthorizeUrl_keys (c : SpotifyJS) (o : option AuthorizeOptions) :
  exists u,
    generateAuthorizeUrl o c = (Normal u, c)
    /\ query_keys u
       = (["client_id"; "redirect_uri"; "response_type"]
          ++ (if truthy (of_string (o ≫= opt_scope)) then ["scope"] else [])
          ++ (match o ≫= show_dialog with Some true => ["show_dialog"] | _ => [] end)
          ++ (if truthy (of_string (o ≫= state)) then ["state"] else []))%list.
Proof.
  destruct (authorize_query_pairs c o) as (u & Hu & Hp).
  exists u. split; [exact Hu|]. unfold query_keys. rewrite Hp. clear.
  generalize (clientId c) (redirectUri c). intros cid ru.
  destruct o as [[[[|a s]|] [[|b sc]|] [[]|]]|]; unfold appended_parameters;
    match goal with
    | |- context [sort ?l] =>
        let r := eval vm_compute in (sort l) in change (sort l) with r
    end; reflexivity.
Qed.

End AuthorizeUrlValues.

(** ** The dispatcher and the endpoint methods, on every reply *)

Section Replies.

(** X3.  The dispatcher sends exactly one request per call, never rejects
    and writes no credential.  It is fulfilled with the [data] of the
    response when the transport resolves with an object ([undefined] when
    the object has no [data]), with a TypeError when the transport resolves
    with [undefined] or [null], and with the error when the transport
    fails. *)
Theorem dispatcher_always_fulfils (config : RequestConfig) (c : SpotifyJS) :
  exists v,
    fst (_makeApiRequest config c) = Fulfilled v
    /\ sent (_axiosInstance (snd (_makeApiRequest config c)))
       = (sent (_axiosInstance c) ++ [outgoing (_axiosInstance c) config])%list
    /\ accessToken (snd (_makeApiRequest config c)) = accessToken c
    /\ refreshToken (snd (_makeApiRequest config c)) = refreshToken c
    /\ default_headers (_axiosInstance (snd (_makeApiRequest config c)))
       = default_headers (_axiosInstance c)
    /\ (forall fields,
          transport_reply c config = Resolve (VObj fields) ->
          v = default VUndefined (lookup_field "data" fields))
    /\ (forall response,
          transport_reply c config = Resolve response -> is_nullish response = true ->
          exists message, v = TypeError message)
    /\ (forall e, transport_reply c config = Reject e -> v = e).
Proof.
  rewrite _makeApiRequest_eq. eexists. split; [reflexivity|].
  repeat split.
  - intros fields ->. reflexivity.
  - intros response -> Hn. destruct response; try discriminate Hn; cbn; eauto.
  - intros e ->. reflexivity.
Qed.

(** Each endpoint call is one dispatch under the defaults. *)
Lemma endpoint_request_shape_aux (m : EndpointCall) (c : SpotifyJS) :
  bearer_in_sync c ->
  exists r,
    sent (_axiosInstance (snd (endpoint m c))) = (sent (_axiosInstance c) ++ [r])%list
    /\ authorization r = Some ("Bearer " ++ to_string (accessToken c))
    /\ req_baseURL r = baseURL (_axiosInstance c)
    /\ fst (endpoint m c)
       = Fulfilled
           (dispatched (adapter (_axiosInstance c) (sent (_axiosInstance c)) r)).
Proof.
  intros Hsync. destruct (endpoint_dispatches m) as (config & -> & Hh).
  rewrite _makeApiRequest_eq. eexists. split; [reflexivity|].
  split; [|split; reflexivity].
  unfold authorization, outgoing. cbn. rewrite Hh, (left_id_L ∅ (∪)). exact Hsync.
Qed.

(** X4.  On an object whose default header is the bearer form of its
    access token, every endpoint method sends exactly one request, under
    that bearer header and the instance's base URL, with the verb GET, POST
    or PUT, without a body unless it is [startPlayback]; its promise is
    fulfilled with what the dispatcher makes of the reply. *)
Theorem endpoint_request_shape (m : EndpointCall) (c : SpotifyJS) :
  bearer_in_sync c ->
  exists r,
    sent (_axiosInstance (snd (endpoint m c))) = (sent (_axiosInstance c) ++ [r])%list
    /\ authorization r = Some ("Bearer " ++ to_string (accessToken c))
    /\ req_baseURL r = baseURL (_axiosInstance c)
    /\ (req_method r = "GET" \/ req_method r = "POST" \/ req_method r = "PUT")
    /\ (req_body r = NoBody
        \/ exists device_id context_uri uris offset position_ms,
             m = StartPlayback device_id context_uri uris offset position_ms)
    /\ fst (endpoint m c)
       = Fulfilled
           (dispatched (adapter (_axiosInstance c) (sent (_axiosInstance c)) r)).
Proof.
  intros Hsync.
  assert (exists config,
            endpoint m = _makeApiRequest config /\ headers config = ∅
            /\ (method config = "GET" \/ method config = "POST" \/ method config = "PUT")
            /\ (data config = None
                \/ exists device_id context_uri uris offset position_ms,
                     m = StartPlayback device_id context_uri uris offset position_ms))
    as (config & -> & Hh & Hm & Hd).
  { destruct m; eexists; (split; [reflexivity|]); (split; [reflexivity|]);
      (split; [cbn; tauto|]); cbn; eauto 10. }
  rewrite _makeApiRequest_eq. eexists. split; [reflexivity|].
  split.
  { unfold authorization, outgoing. cbn. rewrite Hh, (left_id_L ∅ (∪)). exact Hsync. }
  split; [reflexivity|]. split; [exact Hm|].
  split; [|reflexivity].
  destruct Hd as [Hd|Hd]; [left; cbn; now rewrite Hd | right; exact Hd].
Qed.

Lemma endpoint_request_shape_witness :
  exists r,
    sent (_axiosInstance
            (snd (endpoint (PausePlayback (Some "device"))
                    (test_client None None (Resolve token_response)))))
    = [r]
    /\ authorization r = Some "Bearer old-access"
    /\ req_method r = "PUT"
    /\ req_url r = "me/player/pause"
    /\ req_query r = [("device_id", VStr "device")].
Proof.
  destruct (endpoint_request_shape (PausePlayback (Some "device"))
              (test_client None None (Resolve token_response)) eq_refl)
    as (r & Hs & Ha & _).
  exists r. split; [exact Hs|]. split; [exact Ha|].
  injection Hs as <-. repeat split.
Defined.

(** X5.  The required query arguments always go out: [q] and [type] of
    [search] and [volume_percent] of [setVolume] with the value given, also
    when it is the empty string or zero; each element of [ids] of
    [getSeveralAlbums] as a pair of its own under [ids[]] -- so that an
    empty [ids] sends no [ids] parameter at all. *)
Theorem required_arguments_are_sent (m : EndpointCall) (c : SpotifyJS) :
  exists r,
    sent (_axiosInstance (snd (endpoint m c))) = (sent (_axiosInstance c) ++ [r])%list
    /\ (forall k v,
          In (k, v) (flat_map wire_param (required_arguments m)) ->
          In (k, v) (req_query r))
    /\ (forall q type market limit offset,
          m = Search q type market limit offset ->
          In ("q", VStr q) (req_query r) /\ In ("type", VStr type) (req_query r))
    /\ (forall volume_percent device_id,
          m = SetVolume volume_percent device_id ->
          In ("volume_percent", VNum volume_percent) (req_query r))
    /\ (forall ids market,
          m = GetSeveralAlbums ids market ->
          (forall id, In id ids -> In ("ids[]", VStr id) (req_query r))
          /\ (ids = [] ->
              ~ In "ids" (map fst (req_query r))
              /\ ~ In "ids[]" (map fst (req_query r)))).
Proof.
  destruct m;
    cbv [endpoint getAlbumTracks getAlbum getSeveralAlbums getArtistAlbums
           getArtistsTopTracks getArtist getPlaybackState skipToNext skipToPrevious
           pausePlayback startPlayback getAvailableDevices getPlaylist
           getPlaylistItems setVolume getCurrentUsersPlaylist search
           getCurrentUserProfile];
    rewrite _makeApiRequest_eq; (eexists; split; [reflexivity|]);
    cbn [req_query outgoing params required_arguments flat_map];
    (split; [|split; [|split]]).
  all: try (intros k v Hin; cbn in Hin |- *; rewrite ?app_nil_r in *;
            rewrite ?in_app_iff; tauto).
  all: try (intros ? ? ? ? ? E;
            first [discriminate E | injection E as <- <- <- <- <-; cbn; tauto]).
  all: try (intros ? ? E; discriminate E).
  - intros ? ? [= <- <-]. split.
    + intros id Hid. apply in_or_app. left.
      apply in_map_iff. exists (VStr id). split; [reflexivity|]. now apply in_map.
    + intros ->. destruct market; cbn; intuition discriminate.
  - intros ? ? [= <- <-]. cbn. tauto.
Qed.

Lemma required_arguments_are_sent_witness :
  exists r,
    sent (_axiosInstance
            (snd (endpoint (Search "" "artist" None None None)
                    (test_client None None (Resolve token_response)))))
    = [r]
    /\ In ("q", VStr "") (req_query r).
Proof.
  destruct (required_arguments_are_sent (Search "" "artist" None None None)
              (test_client None None (Resolve token_response)))
    as (r & Hs & Hq & _).
  exists r. split; [exact Hs|]. apply Hq. cbn. tauto.
Defined.

(** [getSeveralAlbums] on the wire: one [ids[]] pair per id. *)
Example getSeveralAlbums_request :
  exists r,
    sent (_axiosInstance
            (snd (getSeveralAlbums ["a"; "b"] None
                    (test_client None None (Resolve token_response)))))
    = [r]
    /\ req_query r = [("ids[]", VStr "a"); ("ids[]", VStr "b")].
Proof. eexists. split; reflexivity. Qed.

End Replies.

(** ** Credentials over a run of calls *)

Section Credentials.

Variable atob : string -> completion string.

(** X6.  [setAccessToken] takes effect at once: the getter returns the new
    token, the refresh token is untouched, and every endpoint request made
    afterwards on the same object carries the new bearer header. *)
Theorem setAccessToken_takes_effect (token : string) (c : SpotifyJS)
    (ms : list EndpointCall) :
  let c' := snd (setAccessToken (VStr token) c) in
  fst (getAccessToken c') = Normal (VStr token)
  /\ fst (getRefreshToken c') = fst (getRefreshToken c)
  /\ exists rs,
       sent (_axiosInstance (endpoints ms c')) = (sent (_axiosInstance c) ++ rs)%list
       /\ length rs = length ms
       /\ Forall (fun r => authorization r = Some ("Bearer " ++ token)) rs.
Proof.
  cbn zeta. split; [reflexivity|]. split; [reflexivity|].
  destruct (endpoints_send ms (snd (setAccessToken (VStr token) c)))
    as (rs & H1 & H2 & H3 & _).
  exists rs. split; [exact H1|]. split; [exact H2|].
  eapply Forall_impl; [exact H3|]. intros r ->. cbn. apply lookup_insert_eq.
Qed.

Lemma run_in_sync (op : Operation) (c : SpotifyJS) :
  bearer_in_sync c -> bearer_in_sync (snd (run atob op c)).
Proof.
  intros H. destruct op as [config|m|code|]; cbn [run].
  - unfold call. now rewrite _makeApiRequest_eq.
  - destruct (endpoint_dispatches m) as (config & -> & _).
    unfold call. now rewrite _makeApiRequest_eq.
  - unfold call. rewrite requestAccessToken_eq.
    destruct (negb _); [exact H|].
    destruct (atob _); [|exact H]. cbn zeta.
    destruct (get_prop _ "access_token"); [|exact H].
    destruct (get_prop _ "refresh_token"); apply setAccessToken_in_sync.
  - rewrite refreshAccessToken_eq.
    destruct (negb _); [exact H|]. destruct (negb _); [exact H|].
    destruct (atob _); exact H.
Qed.

Lemma step_in_sync (s : Step) (c : SpotifyJS) :
  bearer_in_sync c -> bearer_in_sync (step atob s c).
Proof.
  intros H. destruct s; cbn [step].
  - now apply run_in_sync.
  - apply setAccessToken_in_sync.
  - exact H.
  - exact H.
  - exact H.
  - now rewrite generateAuthorizeUrl_eq.
Qed.

(** X7.  From construction on, through any sequence of public calls
    (setters, getters, [generateAuthorizeUrl], endpoint methods, token
    operations), the default Authorization header of the instance is the
    bearer form of the stored access token. *)
Theorem bearer_header_invariant (axios_create : AxiosInstance)
    (config : ClientConfig.t) (l : list Step) :
  bearer_in_sync (steps atob l (new_SpotifyJS axios_create config)).
Proof.
  unfold steps.
  generalize (new_SpotifyJS_in_sync axios_create config).
  generalize (new_SpotifyJS axios_create config).
  induction l as [|s l IH]; intros c H; [exact H|].
  cbn [fold_left]. apply IH. now apply step_in_sync.
Qed.

Lemma run_sends (op : Operation) (c : SpotifyJS) :
  exists rs,
    sent (_axiosInstance (snd (run atob op c))) = (sent (_axiosInstance c) ++ rs)%list
    /\ length rs <= 1.
Proof.
  assert (forall c', sent (_axiosInstance c') = sent (_axiosInstance c) ->
            exists rs, sent (_axiosInstance c') = (sent (_axiosInstance c) ++ rs)%list
                       /\ length rs <= 1) as Hnone.
  { intros c' ->. exists []. rewrite app_nil_r. split; [reflexivity | simpl; lia]. }
  assert (forall c' r, sent (_axiosInstance c') = (sent (_axiosInstance c) ++ [r])%list ->
            exists rs, sent (_axiosInstance c') = (sent (_axiosInstance c) ++ rs)%list
                       /\ length rs <= 1) as Hone.
  { intros c' r ->. exists [r]. split; [reflexivity | simpl; lia]. }
  destruct op as [config|m|code|]; cbn [run].
  - unfold call. rewrite _makeApiRequest_eq. eapply Hone. reflexivity.
  - destruct (endpoint_dispatches m) as (config & -> & _).
    unfold call. rewrite _makeApiRequest_eq. eapply Hone. reflexivity.
  - unfold call. rewrite requestAccessToken_eq.
    destruct (negb _); [now apply Hnone|].
    destruct (atob _); [|now apply Hnone]. cbn zeta.
    destruct (get_prop _ "access_token"); [|eapply Hone; reflexivity].
    destruct (get_prop _ "refresh_token"); eapply Hone; reflexivity.
  - rewrite refreshAccessToken_eq.
    destruct (negb _); [now apply Hnone|]. destruct (negb _); [now apply Hnone|].
    destruct (atob _); [eapply Hone; reflexivity | now apply Hnone].
Qed.

(** X8.  No call retries or sends anything on the side: after any
    sequence of public calls the requests sent before are still there, in
    order, followed by at most one new request per call. *)
Theorem one_request_per_call_at_most (l : list Step) (c : SpotifyJS) :
  exists rs,
    sent (_axiosInstance (steps atob l c)) = (sent (_axiosInstance c) ++ rs)%list
    /\ length rs <= length l.
Proof.
  unfold steps. revert c. induction l as [|s l IH]; intros c.
  - exists []. rewrite app_nil_r. split; [reflexivity | simpl; lia].
  - cbn [fold_left]. destruct (IH (step atob s c)) as (rs & Hs & Hl).
    assert (exists rs0,
              sent (_axiosInstance (step atob s c)) = (sent (_axiosInstance c) ++ rs0)%list
              /\ length rs0 <= 1) as (rs0 & Hs0 & Hl0).
    { destruct s; cbn [step]; try apply run_sends;
        exists []; rewrite app_nil_r; (split; [reflexivity | simpl; lia]). }
    exists (rs0 ++ rs)%list. rewrite Hs, Hs0, <- app_assoc.
    split; [reflexivity|]. rewrite length_app. simpl. lia.
Qed.

(** X9.  The [scope] and [autoRefreshToken] given to the constructor are
    stored and never read: with other values in these two fields every
    operation returns the same result and leaves the same object, up to
    these two fields; so does [generateAuthorizeUrl]. *)
Theorem unread_fields (s : option string) (b : option bool) (c : SpotifyJS) :
  (forall op,
     run atob op (with_scope s (with_autoRefreshToken b c))
     = (fst (run atob op c),
        with_scope s (with_autoRefreshToken b (snd (run atob op c)))))
  /\ (forall o,
        generateAuthorizeUrl o (with_scope s (with_autoRefreshToken b c))
        = (fst (generateAuthorizeUrl o c), with_scope s (with_autoRefreshToken b c))).
Proof.
  split.
  - intros op. destruct op as [config|m|code|]; cbn [run].
    + unfold call. now rewrite !_makeApiRequest_eq.
    + destruct (endpoint_dispatches m) as (config & -> & _).
      unfold call. now rewrite !_makeApiRequest_eq.
    + unfold call. rewrite !requestAccessToken_eq.
      cbn [with_scope with_autoRefreshToken clientSecret basic_credentials clientId].
      change (basic_credentials (with_scope s (with_autoRefreshToken b c)))
        with (basic_credentials c).
      destruct (negb _); [reflexivity|].
      destruct (atob _); [|reflexivity]. cbn zeta.
      change (transport_reply (with_scope s (with_autoRefreshToken b c)))
        with (transport_reply c).
      change (authorization_code_body code (with_scope s (with_autoRefreshToken b c)))
        with (authorization_code_body code c).
      destruct (get_prop _ "access_token"); [|reflexivity].
      destruct (get_prop _ "refresh_token"); reflexivity.
    + rewrite !refreshAccessToken_eq.
      cbn [with_scope with_autoRefreshToken clientSecret refreshToken].
      change (basic_credentials (with_scope s (with_autoRefreshToken b c)))
        with (basic_credentials c).
      destruct (negb _); [reflexivity|]. destruct (negb _); [reflexivity|].
      destruct (atob _); reflexivity.
  - intros o. now rewrite !generateAuthorizeUrl_eq.
Qed.

End Credentials.

(** ** Construction and the setters *)

Section Construction.

(** X10.  A newly constructed client talks to the API root under the
    access token of its config, through the custom instance when one is
    given and through [axios.create()] otherwise: its first endpoint call
    sends one request after those the instance had sent, with base URL
    [https://api.spotify.com/v1] and the bearer header of the config's token
    (whatever base URL or Authorization default the instance had), and is
    fulfilled with what the dispatcher makes of that instance's reply. *)
Theorem first_call_after_construction (axios_create : AxiosInstance)
    (config : ClientConfig.t) (m : EndpointCall) :
  let ax := default axios_create (ClientConfig.customAxiosInstance config) in
  let c := new_SpotifyJS axios_create config in
  fst (getAccessToken c) = Normal (VStr (ClientConfig.accessToken config))
  /\ fst (getRefreshToken c) = Normal (of_string (ClientConfig.refreshToken config))
  /\ sent (_axiosInstance c) = sent ax
  /\ (forall k, k <> "Authorization" ->
        default_headers (_axiosInstance c) !! k = default_headers ax !! k)
  /\ exists r,
       sent (_axiosInstance (snd (endpoint m c))) = (sent ax ++ [r])%list
       /\ req_baseURL r = Some "https://api.spotify.com/v1"
       /\ authorization r = Some ("Bearer " ++ ClientConfig.accessToken config)
       /\ fst (endpoint m c) = Fulfilled (dispatched (adapter ax (sent ax) r)).
Proof.
  cbn zeta. split; [reflexivity|]. split; [reflexivity|]. split; [reflexivity|].
  split.
  { intros k Hk. cbn. now rewrite lookup_insert_ne. }
  destruct (endpoint_request_shape_aux m (new_SpotifyJS axios_create config)
              (new_SpotifyJS_in_sync axios_create config))
    as (r & Hs & Ha & Hb & Hf).
  exists r. split; [exact Hs|]. split; [exact Hb|]. split; [exact Ha|]. exact Hf.
Qed.

(** X11.  The setters compose as assignments do: of two [setAccessToken]
    calls the last one wins, of two [setRefreshToken] calls likewise, and
    the two setters commute. *)
Theorem setters_compose (a1 a2 r1 r2 : value) (c : SpotifyJS) :
  snd (setAccessToken a2 (snd (setAccessToken a1 c))) = snd (setAccessToken a2 c)
  /\ snd (setRefreshToken r2 (snd (setRefreshToken r1 c))) = snd (setRefreshToken r2 c)
  /\ snd (setRefreshToken r1 (snd (setAccessToken a1 c)))
     = snd (setAccessToken a1 (snd (setRefreshToken r1 c))).
Proof.
  split; [|split; reflexivity].
  unfold setAccessToken, with_axiosInstance, with_accessToken, set_default_header.
  cbn. now rewrite insert_insert_eq.
Qed.

End Construction.

(** ** The token operations on every reply *)

Section TokenReplies.

Variable atob : string -> completion string.

(** X12.  With a client secret set, [requestAccessToken] never rejects:
    whatever [atob] and the transport do, its promise is fulfilled -- with
    the reply, with the transport's error, or with the error thrown on the
    way. *)
Theorem requestAccessToken_never_rejects (code : string) (c : SpotifyJS) :
  truthy (of_string (clientSecret c)) = true ->
  exists v, fst (requestAccessToken atob code c) = Fulfilled v.
Proof.
  intros Hs. rewrite requestAccessToken_eq, Hs. cbn [negb].
  destruct (atob _); [|eauto]. cbn zeta.
  destruct (get_prop _ "access_token"); [|eauto].
  destruct (get_prop _ "refresh_token"); eauto.
Qed.

(** X13.  A reply without a body: when the credentials string is there and
    what the dispatcher hands back is [undefined] or [null] (a response with
    no [data]), reading [access_token] throws before anything is stored;
    the promise is fulfilled with that TypeError and both tokens and the
    default header are as before. *)
Theorem requestAccessToken_empty_reply (code : string) (c : SpotifyJS)
    (credentials : string) :
  truthy (of_string (clientSecret c)) = true ->
  atob (basic_credentials c) = Normal credentials ->
  is_nullish
    (dispatched
       (transport_reply c (token_config credentials (authorization_code_body code c))))
  = true ->
  let c' := snd (requestAccessToken atob code c) in
  (exists message, fst (requestAccessToken atob code c) = Fulfilled (TypeError message))
  /\ accessToken c' = accessToken c
  /\ refreshToken c' = refreshToken c
  /\ default_headers (_axiosInstance c') = default_headers (_axiosInstance c)
  /\ length (sent (_axiosInstance c')) = S (length (sent (_axiosInstance c))).
Proof.
  intros Hs Ha Hn. rewrite requestAccessToken_eq, Hs, Ha. cbn [negb]. cbn zeta.
  destruct (dispatched _); try discriminate Hn; cbn;
    (split; [eauto|]); repeat split; rewrite length_app; simpl; lia.
Qed.

(** X14.  Any other reply is stored without a check: when the credentials
    string is there and the dispatcher hands back a value that is neither
    [undefined] nor [null], the stored access token and refresh token become
    that value's [access_token] and [refresh_token] -- [undefined] where it
    has none, as for a string body or an object of another shape -- the
    bearer header follows, and the promise is fulfilled with the value. *)
Theorem requestAccessToken_stores_any_reply (code : string) (c : SpotifyJS)
    (credentials : string) (a r : value) :
  truthy (of_string (clientSecret c)) = true ->
  atob (basic_credentials c) = Normal credentials ->
  let response :=
    dispatched
      (transport_reply c (token_config credentials (authorization_code_body code c))) in
  get_prop response "access_token" = Normal a ->
  get_prop response "refresh_token" = Normal r ->
  let c' := snd (requestAccessToken atob code c) in
  fst (requestAccessToken atob code c) = Fulfilled response
  /\ accessToken c' = a
  /\ refreshToken c' = r
  /\ default_headers (_axiosInstance c') !! "Authorization"
     = Some ("Bearer " ++ to_string a).
Proof.
  cbn zeta. intros Hs Ha Hat Hrt.
  rewrite requestAccessToken_eq, Hs, Ha. cbn [negb]. cbn zeta. rewrite Hat, Hrt.
  repeat split. cbn. apply lookup_insert_eq.
Qed.

(** X15.  A token reply without [refresh_token] erases the stored refresh
    token: after such a [requestAccessToken], [getRefreshToken] returns
    [undefined] and a [refreshAccessToken] on the same object throws
    "Refresh token is not set" without sending anything, whatever refresh
    token was stored before. *)
Theorem requestAccessToken_erases_refresh_token (code : string) (c : SpotifyJS)
    (credentials : string) (response : value) (fields : list (string * value)) :
  truthy (of_string (clientSecret c)) = true ->
  atob (basic_credentials c) = Normal credentials ->
  transport_reply c (token_config credentials (authorization_code_body code c))
  = Resolve response ->
  get_prop response "data" = Normal (VObj fields) ->
  lookup_field "refresh_token" fields = None ->
  let c' := snd (requestAccessToken atob code c) in
  fst (getRefreshToken c') = Normal VUndefined
  /\ refreshAccessToken atob c' = (Throw (Error "Refresh token is not set"), c').
Proof.
  cbn zeta. intros Hs Ha Hr Hd Hf.
  rewrite requestAccessToken_eq, Hs, Ha. cbn [negb]. cbn zeta.
  rewrite Hr. cbn [dispatched]. rewrite Hd. cbn [get_prop]. rewrite Hf.
  cbn [snd default]. split; [reflexivity|].
  rewrite refreshAccessToken_eq. cbn. now rewrite Hs.
Qed.

(** X16.  What the two token operations put on the wire once the
    credentials string is there: one POST to
    [https://accounts.spotify.com/api/token], with no query, under
    [Basic <credentials>] instead of the bearer default, as
    application/x-www-form-urlencoded; the body is
    [grant_type=authorization_code&code=..&redirect_uri=..] for
    [requestAccessToken] (given as a string) and
    [grant_type=refresh_token&refresh_token=..] for [refreshAccessToken]
    (given as a URLSearchParams object), the values percent-encoded. *)
Theorem token_requests_on_the_wire (code : string) (c : SpotifyJS)
    (credentials : string) :
  truthy (of_string (clientSecret c)) = true ->
  atob (basic_credentials c) = Normal credentials ->
  (exists r,
     sent (_axiosInstance (snd (requestAccessToken atob code c)))
     = (sent (_axiosInstance c) ++ [r])%list
     /\ req_method r = "POST"
     /\ req_url r = "https://accounts.spotify.com/api/token"
     /\ req_query r = []
     /\ authorization r = Some ("Basic " ++ credentials)
     /\ req_headers r !! "Content-Type" = Some "application/x-www-form-urlencoded"
     /\ req_body r
        = TextBody ("grant_type=authorization_code&code=" ++ URLSearchParams.urlencode code
                    ++ "&redirect_uri=" ++ URLSearchParams.urlencode (redirectUri c)))
  /\ (truthy (refreshToken c) = true ->
      exists r,
        sent (_axiosInstance (snd (refreshAccessToken atob c)))
        = (sent (_axiosInstance c) ++ [r])%list
        /\ req_method r = "POST"
        /\ req_url r = "https://accounts.spotify.com/api/token"
        /\ req_query r = []
        /\ authorization r = Some ("Basic " ++ credentials)
        /\ req_headers r !! "Content-Type" = Some "application/x-www-form-urlencoded"
        /\ req_body r
           = TextBody ("grant_type=refresh_token&refresh_token="
                       ++ URLSearchParams.urlencode (to_string (refreshToken c)))).
Proof.
  intros Hs Ha. split.
  - exists (outgoing (_axiosInstance c)
              (token_config credentials (authorization_code_body code c))).
    destruct (token_request_header (_axiosInstance c) credentials
                (authorization_code_body code c)) as (H1 & H2 & H3 & H4).
    split.
    { rewrite requestAccessToken_eq, Hs, Ha. cbn [negb]. cbn zeta.
      destruct (get_prop _ "access_token"); [|reflexivity].
      destruct (get_prop _ "refresh_token"); reflexivity. }
    split; [exact H1|]. split; [exact H2|]. split; [reflexivity|].
    split; [exact H3|]. split; [exact H4|]. reflexivity.
  - intros Hr.
    exists (outgoing (_axiosInstance c) (token_config credentials (refresh_token_body c))).
    destruct (token_request_header (_axiosInstance c) credentials
                (refresh_token_body c)) as (H1 & H2 & H3 & H4).
    split.
    { rewrite refreshAccessToken_eq, Hs, Hr, Ha. reflexivity. }
    split; [exact H1|]. split; [exact H2|]. split; [reflexivity|].
    split; [exact H3|]. split; [exact H4|]. reflexivity.
Qed.

(** X17.  [refreshAccessToken] past its two checks, once the credentials
    string is there: it does not throw, sends exactly one request and hands
    back a fulfilled promise holding what the dispatcher makes of the reply
    -- the new tokens are the caller's to store; on every path, the stored
    access token, refresh token, client secret and default headers are
    left as they were. *)
Theorem refreshAccessToken_hands_back_reply (c : SpotifyJS) :
  (accessToken (snd (refreshAccessToken atob c)) = accessToken c
   /\ refreshToken (snd (refreshAccessToken atob c)) = refreshToken c
   /\ clientSecret (snd (refreshAccessToken atob c)) = clientSecret c
   /\ default_headers (_axiosInstance (snd (refreshAccessToken atob c)))
      = default_headers (_axiosInstance c))
  /\ (forall credentials,
        truthy (of_string (clientSecret c)) = true ->
        truthy (refreshToken c) = true ->
        atob (basic_credentials c) = Normal credentials ->
        refreshAccessToken atob c
        = (Normal
             (Fulfilled
                (dispatched
                   (transport_reply c (token_config credentials (refresh_token_body c))))),
           after_request (token_config credentials (refresh_token_body c)) c)).
Proof.
  split.
  - rewrite refreshAccessToken_eq.
    destruct (negb _); [repeat split|].
    destruct (negb _); [repeat split|].
    destruct (atob _); repeat split.
  - intros credentials Hs Hr Ha. now rewrite refreshAccessToken_eq, Hs, Hr, Ha.
Qed.

End TokenReplies.

Lemma requestAccessToken_never_rejects_witness :
  exists v,
    fst (requestAccessToken Base64.atob "code"
           (test_client (Some "secret") None (Reject network_error)))
    = Fulfilled v.
Proof.
  exact (requestAccessToken_never_rejects Base64.atob "code"
           (test_client (Some "secret") None (Reject network_error)) eq_refl).
Defined.

Lemma requestAccessToken_empty_reply_witness :
  let c := test_client (Some "secret") (Some "old-refresh") (Resolve (VObj [])) in
  let c' := snd (requestAccessToken Base64.btoa "code" c) in
  (exists message, fst (requestAccessToken Base64.btoa "code" c) = Fulfilled (TypeError message))
  /\ accessToken c' = VStr "old-access"
  /\ refreshToken c' = VStr "old-refresh".
Proof.
  cbn zeta.
  destruct (requestAccessToken_empty_reply Base64.btoa "code"
              (test_client (Some "secret") (Some "old-refresh") (Resolve (VObj [])))
              "dGVzdDpzZWNyZXQ=" eq_refl eq_refl eq_refl)
    as (H1 & H2 & H3 & _).
  split; [exact H1|]. split; [exact H2 | exact H3].
Defined.

Lemma requestAccessToken_stores_any_reply_witness :
  let c := test_client (Some "secret") (Some "old-refresh")
             (Resolve (VObj [("data", VStr "<html>Service unavailable</html>")])) in
  let c' := snd (requestAccessToken Base64.btoa "code" c) in
  fst (requestAccessToken Base64.btoa "code" c)
  = Fulfilled (VStr "<html>Service unavailable</html>")
  /\ accessToken c' = VUndefined
  /\ refreshToken c' = VUndefined
  /\ default_headers (_axiosInstance c') !! "Authorization" = Some "Bearer undefined".
Proof.
  cbn zeta.
  exact (requestAccessToken_stores_any_reply Base64.btoa "code"
           (test_client (Some "secret") (Some "old-refresh")
              (Resolve (VObj [("data", VStr "<html>Service unavailable</html>")])))
           "dGVzdDpzZWNyZXQ=" VUndefined VUndefined eq_refl eq_refl eq_refl eq_refl).
Defined.

Lemma requestAccessToken_erases_refresh_token_witness :
  let c := test_client (Some "secret") (Some "old-refresh")
             (Resolve (VObj [("data", VObj [("access_token", VStr "new-access")])])) in
  let c' := snd (requestAccessToken Base64.btoa "code" c) in
  fst (getRefreshToken c) = Normal (VStr "old-refresh")
  /\ fst (getRefreshToken c') = Normal VUndefined
  /\ refreshAccessToken Base64.btoa c' = (Throw (Error "Refresh token is not set"), c').
Proof.
  cbn zeta. split; [reflexivity|].
  exact (requestAccessToken_erases_refresh_token Base64.btoa "code"
           (test_client (Some "secret") (Some "old-refresh")
              (Resolve (VObj [("data", VObj [("access_token", VStr "new-access")])])))
           "dGVzdDpzZWNyZXQ="
           (VObj [("data", VObj [("access_token", VStr "new-access")])])
           [("access_token", VStr "new-access")]
           eq_refl eq_refl eq_refl eq_refl eq_refl).
Defined.

Lemma token_requests_on_the_wire_witness :
  exists r,
    sent (_axiosInstance
            (snd (requestAccessToken Base64.btoa "a code/1"
                    (test_client (Some "secret") None (Resolve token_response)))))
    = [r]
    /\ authorization r = Some "Basic dGVzdDpzZWNyZXQ="
    /\ req_body r
       = TextBody "grant_type=authorization_code&code=a+code%2F1&redirect_uri=test".
Proof.
  destruct (token_requests_on_the_wire Base64.btoa "a code/1"
              (test_client (Some "secret") None (Resolve token_response))
              "dGVzdDpzZWNyZXQ=" eq_refl eq_refl)
    as [(r & Hs & _ & _ & _ & Ha & _ & Hb) _].
  exists r. split; [exact Hs|]. split; [exact Ha | exact Hb].
Defined.

Lemma refreshAccessToken_hands_back_reply_witness :
  let c := test_client (Some "secret") (Some "old-refresh") (Resolve token_response) in
  (exists reply,
     fst (refreshAccessToken Base64.btoa c) = Normal (Fulfilled reply)
     /\ get_prop reply "access_token" = Normal (VStr "new-access"))
  /\ accessToken (snd (refreshAccessToken Base64.btoa c)) = VStr "old-access".
Proof.
  cbn zeta.
  destruct (refreshAccessToken_hands_back_reply Base64.btoa
              (test_client (Some "secret") (Some "old-refresh") (Resolve token_response)))
    as [(H1 & _) H2].
  split; [|exact H1].
  rewrite (H2 "dGVzdDpzZWNyZXQ=" eq_refl eq_refl eq_refl).
  eexists. split; reflexivity.
Defined.
